(** * async_kinesis_client.kinesis_producer: the buffering Kinesis producer

    A shallow embedding of [AsyncKinesisProducer]
    (src/async_kinesis_client/kinesis_producer.py): the producer object is a
    record, its methods are computations in a state-and-exception monad over
    the producer and the outside world (the clock behind the default
    partition key and the log of calls made to the Kinesis client). *)

From Stdlib Require Import ZArith List String Ascii Bool Lia.
From Stdlib Require Import Strings.Byte.
Import ListNotations.

Local Open Scope string_scope.
Local Open Scope Z_scope.
Local Open Scope list_scope.

(** ** Data *)

(** A Python [bytes] value. *)
Definition bytes := list byte.

(** A Python [dict] of strings, as the client's responses are read here. *)
Definition Response := list (string * string).

(** [d.get(k)]: the value at the first binding of [k], [None] without one. *)
Fixpoint dict_get (k : string) (d : Response) : option string :=
  match d with
  | [] => None
  | (k', v) :: d' => if String.eqb k k' then Some v else dict_get k d'
  end.

(** Truthiness of an optional string argument: [None] and [''] are false. *)
Definition truthy (o : option string) : bool :=
  match o with
  | None => false
  | Some k => negb (String.eqb k "")
  end.

Definition MAX_RECORDS_IN_BATCH : Z := 500.
Definition MAX_RECORD_SIZE : Z := 1024 * 1024.
Definition MAX_BATCH_SIZE : Z := 5 * MAX_RECORD_SIZE.

(** The [datum] dict of [put_records]: ['Data'] and one of the two keys. *)
Record Datum := mkDatum {
  ExplicitHashKey : option string;
  PartitionKey : option string;
  Data : bytes
}.

(** The keyword arguments [put_record] builds for the client. An absent
    dictionary key is [None]; ['SequenceNumberForOrdering'] holds [self.seq],
    which is itself a string or Python's [None]. *)
Record PutRecordKwargs := mkKwargs {
  kw_StreamName : string;
  kw_Data : bytes;
  kw_PartitionKey : string;
  kw_SequenceNumberForOrdering : option (option string);
  kw_ExplicitHashKey : option string
}.

(** One call made to the Kinesis client. *)
Inductive Call :=
| CallPutRecord (kwargs : PutRecordKwargs)
| CallPutRecords (Records : list Datum) (StreamName : string).

(** What a method can raise: the [ValueError] of [put_records] with the four
    values its message is formatted from, or whatever the client raised. *)
Inductive Exn :=
| ValueError (n limit size : Z) (record : bytes)
| ClientError (e : string).

Inductive Outcome (A : Type) :=
| Returned (a : A)
| Raised (e : Exn).
Arguments Returned {A} a.
Arguments Raised {A} e.

(** The attributes of an [AsyncKinesisProducer] that the methods read and
    write ([kinesis_client] is the outside world below). [seq] is a string
    until a response without ['SequenceNumber'] makes it [None]. *)
Record Producer := mkProducer {
  stream_name : string;
  ordered : bool;
  seq : option string;
  record_buf : list Datum;
  buf_size : Z
}.

(** The world outside the producer: how often the clocks were read, and the
    calls made to the client so far, oldest first. *)
Record World := mkWorld {
  clock : nat;
  calls : list Call
}.

(** What the module imports and does not define: [_sizeof] (of
    async_kinesis_client.utils, at a record and at a datum), the two clocks
    of [time] (their readings as [format] prints them), and the aioboto3
    client, whose answer may depend on every call made before. *)
Class Environment := {
  _sizeof_bytes : bytes -> Z;
  _sizeof_datum : Datum -> Z;
  process_time : nat -> string;
  time : nat -> string;
  client_put_record : list Call -> PutRecordKwargs -> Exn + Response;
  client_put_records : list Call -> list Datum -> string -> Exn + Response
}.

(** ** The monad of the methods *)

Definition M (A : Type) : Type := Producer -> World -> Outcome A * Producer * World.

Definition ret {A} (a : A) : M A := fun s w => (Returned a, s, w).

Definition bind {A B} (m : M A) (f : A -> M B) : M B :=
  fun s w =>
    match m s w with
    | (Returned a, s', w') => f a s' w'
    | (Raised e, s', w') => (Raised e, s', w')
    end.

Definition raise {A} (e : Exn) : M A := fun s w => (Raised e, s, w).

Definition get_self : M Producer := fun s w => (Returned s, s, w).

Definition set_self (s' : Producer) : M unit := fun _ w => (Returned tt, s', w).

Notation "x <- m ;; k" := (bind m (fun x => k))
  (at level 61, m at next level, right associativity).
Notation "m ;;; k" := (bind m (fun _ => k))
  (at level 61, right associativity).

Definition with_seq (s : Producer) (v : option string) : Producer :=
  mkProducer (stream_name s) (ordered s) v (record_buf s) (buf_size s).

Definition with_buf (s : Producer) (b : list Datum) (n : Z) : Producer :=
  mkProducer (stream_name s) (ordered s) (seq s) b n.

(** ** The producer *)

Section Producer.

Context {env : Environment}.

(** [_get_default_partition_key]: both clocks are read and their readings
    printed one after the other. *)
Definition _get_default_partition_key : M string :=
  fun s w =>
    (Returned (process_time (clock w) ++ time (clock w))%string, s,
     mkWorld (S (clock w)) (calls w)).

(** [await self.kinesis_client.put_record] at the keyword arguments. *)
Definition kinesis_put_record (kwargs : PutRecordKwargs) : M Response :=
  fun s w =>
    let w' := mkWorld (clock w) (calls w ++ [CallPutRecord kwargs]) in
    match client_put_record (calls w) kwargs with
    | inr resp => (Returned resp, s, w')
    | inl e => (Raised e, s, w')
    end.

(** [await self.kinesis_client.put_records] at [Records] and [StreamName]. *)
Definition kinesis_put_records (Records : list Datum) (StreamName : string) : M Response :=
  fun s w =>
    let w' := mkWorld (clock w) (calls w ++ [CallPutRecords Records StreamName]) in
    match client_put_records (calls w) Records StreamName with
    | inr resp => (Returned resp, s, w')
    | inl e => (Raised e, s, w')
    end.

(** [__init__] (the client it creates is the world). *)
Definition init (stream_name : string) (ordered : bool) : Producer :=
  mkProducer stream_name ordered (Some "0") [] 0.

(** [partition_key or _get_default_partition_key()]. *)
Definition or_default (partition_key : option string) : M string :=
  match partition_key with
  | Some k => if truthy (Some k) then ret k else _get_default_partition_key
  | None => _get_default_partition_key
  end.

Definition put_record (record : bytes) (partition_key explicit_hash_key : option string)
  : M Response :=
  partition_key <- match partition_key with
                   | None => _get_default_partition_key
                   | Some k => ret k
                   end ;;
  self <- get_self ;;
  let kwargs := mkKwargs (stream_name self) record partition_key None None in
  let kwargs :=
    if ordered self
    then mkKwargs (kw_StreamName kwargs) (kw_Data kwargs) (kw_PartitionKey kwargs)
                  (Some (seq self)) (kw_ExplicitHashKey kwargs)
    else kwargs in
  pk <- or_default (Some partition_key) ;;
  let kwargs :=
    mkKwargs (kw_StreamName kwargs) (kw_Data kwargs) pk
             (kw_SequenceNumberForOrdering kwargs) (kw_ExplicitHashKey kwargs) in
  let kwargs :=
    if truthy explicit_hash_key
    then mkKwargs (kw_StreamName kwargs) (kw_Data kwargs) (kw_PartitionKey kwargs)
                  (kw_SequenceNumberForOrdering kwargs) explicit_hash_key
    else kwargs in
  resp <- kinesis_put_record kwargs ;;
  self <- get_self ;;
  (if ordered self
   then set_self (with_seq self (dict_get "SequenceNumber" resp))
   else ret tt) ;;;
  ret resp.

Definition flush : M (option Response) :=
  self <- get_self ;;
  if (List.length (record_buf self) =? 0)%nat
  then ret None
  else
    resp <- kinesis_put_records (record_buf self) (stream_name self) ;;
    self <- get_self ;;
    set_self (with_buf self [] 0) ;;;
    ret (Some resp).

(** The [datum] built for record [r]. *)
Definition make_datum (r : bytes) (partition_key explicit_hash_key : option string)
  : M Datum :=
  if truthy explicit_hash_key
  then ret (mkDatum explicit_hash_key None r)
  else
    pk <- or_default partition_key ;;
    ret (mkDatum None (Some pk) r).

(** [resp.append(await self.flush())]. *)
Definition flush_into (resp : list (option Response)) : M (list (option Response)) :=
  r0 <- flush ;;
  ret (resp ++ [r0]).

(** One turn of the [for r in records] loop of [put_records], from the
    current [resp] and [n] to the [resp] after it. *)
Definition put_records_body (r : bytes) (partition_key explicit_hash_key : option string)
    (resp : list (option Response)) (n : Z) : M (list (option Response)) :=
  self <- get_self ;;
  resp <- (if Z.of_nat (List.length (record_buf self)) =? MAX_RECORDS_IN_BATCH
           then flush_into resp
           else ret resp) ;;
  let record_size := _sizeof_bytes r in
  if record_size >? MAX_RECORD_SIZE
  then raise (ValueError n MAX_RECORD_SIZE record_size r)
  else
    datum <- make_datum r partition_key explicit_hash_key ;;
    let datum_size := _sizeof_datum datum in
    self <- get_self ;;
    resp <- (if buf_size self + datum_size >? MAX_BATCH_SIZE
             then flush_into resp
             else ret resp) ;;
    self <- get_self ;;
    set_self (with_buf self (record_buf self ++ [datum]) (buf_size self + datum_size)) ;;;
    ret resp.

Fixpoint put_records_loop (records : list bytes) (partition_key explicit_hash_key : option string)
    (resp : list (option Response)) (n : Z) : M (list (option Response)) :=
  match records with
  | [] => ret resp
  | r :: records' =>
      resp <- put_records_body r partition_key explicit_hash_key resp n ;;
      put_records_loop records' partition_key explicit_hash_key resp (n + 1)
  end.

Definition put_records (records : list bytes) (partition_key explicit_hash_key : option string)
  : M (list (option Response)) :=
  put_records_loop records partition_key explicit_hash_key [] 1.

End Producer.

(** ** Vocabulary of the statements *)

(** The records handed to the client by the [put_records] calls of a log,
    in the order they were sent. *)
Definition batch_of (c : Call) : list Datum :=
  match c with
  | CallPutRecords Records _ => Records
  | CallPutRecord _ => []
  end.

Definition sent (cs : list Call) : list Datum := flat_map batch_of cs.

Definition sum_sizes {env : Environment} (b : list Datum) : Z :=
  fold_right (fun d acc => _sizeof_datum d + acc) 0 b.

(** The client answers every [put_records] call. *)
Definition put_records_succeeds (env : Environment) : Prop :=
  forall h Records StreamName, exists resp,
    client_put_records h Records StreamName = inr resp.

(** The datum [make_datum] builds when the clocks are at reading [c], and
    whether it read them. *)
Definition reads_clock (partition_key explicit_hash_key : option string) : bool :=
  negb (truthy explicit_hash_key) && negb (truthy partition_key).

Definition datum_at {env : Environment} (r : bytes)
    (partition_key explicit_hash_key : option string) (c : nat) : Datum :=
  if truthy explicit_hash_key then mkDatum explicit_hash_key None r
  else if truthy partition_key then mkDatum None partition_key r
  else mkDatum None (Some (process_time c ++ time c)%string) r.

Definition clock_after (partition_key explicit_hash_key : option string) (c : nat) : nat :=
  if reads_clock partition_key explicit_hash_key then S c else c.

Fixpoint datums_at {env : Environment} (records : list bytes)
    (partition_key explicit_hash_key : option string) (c : nat) : list Datum :=
  match records with
  | [] => []
  | r :: records' =>
      datum_at r partition_key explicit_hash_key c
      :: datums_at records' partition_key explicit_hash_key
           (clock_after partition_key explicit_hash_key c)
  end.

(** The world after one more call to the client. *)
Definition logged (w : World) (c : Call) : World :=
  mkWorld (clock w) (calls w ++ [c]).

(** The two halves of a turn of the loop: the check of the record count,
    and the rest, from the size of the record to the buffer update. *)
Definition count_check {env : Environment} (resp : list (option Response))
  : M (list (option Response)) :=
  self <- get_self ;;
  if Z.of_nat (List.length (record_buf self)) =? MAX_RECORDS_IN_BATCH
  then flush_into resp
  else ret resp.

Definition add_record {env : Environment} (r : bytes)
    (partition_key explicit_hash_key : option string)
    (resp : list (option Response)) (n : Z) : M (list (option Response)) :=
  if _sizeof_bytes r >? MAX_RECORD_SIZE
  then raise (ValueError n MAX_RECORD_SIZE (_sizeof_bytes r) r)
  else
    datum <- make_datum r partition_key explicit_hash_key ;;
    self <- get_self ;;
    resp <- (if buf_size self + _sizeof_datum datum >? MAX_BATCH_SIZE
             then flush_into resp
             else ret resp) ;;
    self <- get_self ;;
    set_self (with_buf self (record_buf self ++ [datum])
                       (buf_size self + _sizeof_datum datum)) ;;;
    ret resp.

(** A call that hands a non-empty batch to the client for [stream]. *)
Definition is_batch_for (stream : string) (c : Call) : Prop :=
  exists b, b <> [] /\ c = CallPutRecords b stream.

(** [m] returns, and what it sent to the client followed by what it left in
    the buffer is what the buffer held before followed by the payloads
    [added]; every call it made handed a non-empty batch to the producer's
    stream. *)
Definition conserves {env : Environment} {A} (m : M A) (s : Producer) (w : World)
    (added : list bytes) : Prop :=
  exists a s' w' new,
    m s w = (Returned a, s', w')
    /\ calls w' = calls w ++ new
    /\ map Data (sent new) ++ map Data (record_buf s') = map Data (record_buf s) ++ added
    /\ stream_name s' = stream_name s
    /\ Forall (is_batch_for (stream_name s)) new.

(** The three public operations, as a caller may issue them one after the
    other; a caller that catches an exception goes on with the producer as
    the failed call left it. *)
Inductive Op :=
| OpPutRecord (record : bytes) (partition_key explicit_hash_key : option string)
| OpPutRecords (records : list bytes) (partition_key explicit_hash_key : option string)
| OpFlush.

Definition run_op {env : Environment} (op : Op) (s : Producer) (w : World)
  : Producer * World :=
  match op with
  | OpPutRecord r pk ehk => let '(_, s', w') := put_record r pk ehk s w in (s', w')
  | OpPutRecords rs pk ehk => let '(_, s', w') := put_records rs pk ehk s w in (s', w')
  | OpFlush => let '(_, s', w') := flush s w in (s', w')
  end.

Fixpoint run_ops {env : Environment} (ops : list Op) (s : Producer) (w : World)
  : Producer * World :=
  match ops with
  | [] => (s, w)
  | op :: ops' => let '(s', w') := run_op op s w in run_ops ops' s' w'
  end.

(** The invariant of the buffer as the claim words it, and as it holds. *)
Definition buffer_within_limits {env : Environment} (s : Producer) : Prop :=
  buf_size s = sum_sizes (record_buf s)
  /\ Z.of_nat (List.length (record_buf s)) <= MAX_RECORDS_IN_BATCH
  /\ buf_size s <= MAX_BATCH_SIZE.

Definition buffer_invariant {env : Environment} (s : Producer) : Prop :=
  buf_size s = sum_sizes (record_buf s)
  /\ Z.of_nat (List.length (record_buf s)) <= MAX_RECORDS_IN_BATCH
  /\ (buf_size s <= MAX_BATCH_SIZE \/ exists d, record_buf s = [d]).

(** A series of [put_records] calls, each with its own arguments. *)
Fixpoint put_records_series {env : Environment}
    (batches : list (list bytes * option string * option string))
  : M (list (list (option Response))) :=
  match batches with
  | [] => ret []
  | (records, partition_key, explicit_hash_key) :: batches' =>
      resp <- put_records records partition_key explicit_hash_key ;;
      resps <- put_records_series batches' ;;
      ret (resp :: resps)
  end.

(** A series of [put_record] calls, each with its own arguments. *)
Fixpoint put_record_series {env : Environment}
    (args : list (bytes * option string * option string))
  : M (list Response) :=
  match args with
  | [] => ret []
  | (record, partition_key, explicit_hash_key) :: args' =>
      resp <- put_record record partition_key explicit_hash_key ;;
      resps <- put_record_series args' ;;
      ret (resp :: resps)
  end.

(** ** A concrete environment *)

Fixpoint string_repeat (n : nat) (c : ascii) : string :=
  match n with
  | O => EmptyString
  | S n' => String c (string_repeat n' c)
  end.

(** Modelled from the spec: [_sizeof], which is defined in
    async_kinesis_client/utils.py and is not among the sources. Section 3:
    a record's size is its payload length, a datum's size is the sum of
    payload length and key length. *)
Definition spec_sizeof_bytes (r : bytes) : Z := Z.of_nat (List.length r).

Definition key_length (k : option string) : Z :=
  match k with
  | Some k => Z.of_nat (String.length k)
  | None => 0
  end.

Definition spec_sizeof_datum (d : Datum) : Z :=
  Z.of_nat (List.length (Data d))
  + (key_length (ExplicitHashKey d) + key_length (PartitionKey d)).

(** Clocks whose readings differ from one call to the next. *)
Definition demo_process_time (c : nat) : string := "0.0625".
Definition demo_time (c : nat) : string :=
  ("154143" ++ String (ascii_of_nat (48 + c mod 10)) ".5")%string.

(** A client that accepts every call, the answer to a [put_record] carrying
    a sequence number that tells how many calls came before it. *)
Definition accepting_put_record (h : list Call) (kwargs : PutRecordKwargs)
  : Exn + Response :=
  inr [("ShardId", "shardId-000000000000");
       ("SequenceNumber", string_repeat (S (List.length h)) "7")].

Definition accepting_put_records (h : list Call) (Records : list Datum)
    (StreamName : string) : Exn + Response :=
  inr [("FailedRecordCount", "0")].

(** A client that refuses its first call and accepts the later ones. *)
Definition refusing_once_put_records (h : list Call) (Records : list Datum)
    (StreamName : string) : Exn + Response :=
  match h with
  | [] => inl (ClientError "ProvisionedThroughputExceededException")
  | _ => inr [("FailedRecordCount", "0")]
  end.

Definition accepting_env : Environment :=
  Build_Environment spec_sizeof_bytes spec_sizeof_datum demo_process_time demo_time
                    accepting_put_record accepting_put_records.

Definition refusing_once_env : Environment :=
  Build_Environment spec_sizeof_bytes spec_sizeof_datum demo_process_time demo_time
                    accepting_put_record refusing_once_put_records.

(** ** Concrete inputs *)

(** A record of [n] zero bytes and a key of [n] characters. *)
Definition payload (n : Z) : bytes := repeat "000"%byte (Z.to_nat n).
Definition long_key (n : Z) : string := string_repeat (Z.to_nat n) "k".

(** A world in which nothing has happened yet. *)
Definition w0 : World := mkWorld 0 [].

(** 500 one-byte records under the key [k], as 500 [put_records] turns on a
    new producer leave them in the buffer. *)
Definition small_datum : Datum := mkDatum None (Some "k") ["001"%byte].
Definition full_producer : Producer :=
  mkProducer "orders" true (Some "0") (repeat small_datum 500) 1000.

(** Three records of 1 MiB under a key of 664098 characters, 5138022 bytes
    (4.9 MiB) in all. *)
Definition heavy_datum : Datum := mkDatum None (Some (long_key 664098)) (payload 1048576).
Definition heavy_producer : Producer :=
  mkProducer "orders" false (Some "0") [heavy_datum; heavy_datum; heavy_datum] 5138022.

(** ** Vocabulary of the further statements *)

(** The key [_get_default_partition_key] returns when the clocks are at
    reading [c]. *)
Definition default_key_at {env : Environment} (c : nat) : string :=
  (process_time c ++ time c)%string.

(** A datum that holds exactly one of its two keys. *)
Definition one_key (d : Datum) : Prop :=
  (ExplicitHashKey d <> None /\ PartitionKey d = None)
  \/ (ExplicitHashKey d = None /\ PartitionKey d <> None).

(** A producer whose buffer is within the invariant and holds one-key
    datums only. *)
Definition well_formed {env : Environment} (s : Producer) : Prop :=
  buffer_invariant s /\ Forall one_key (record_buf s).

(** What a method working on the buffer does to producer and world: name,
    ordering mode and sequence number stay, and every call made hands to
    the client, for the producer's stream, the non-empty buffer of a
    producer [t] that is well formed if the one at the start was. *)
Definition buffer_step {env : Environment} (s : Producer) (w : World)
    (s' : Producer) (w' : World) : Prop :=
  stream_name s' = stream_name s
  /\ ordered s' = ordered s
  /\ seq s' = seq s
  /\ (well_formed s -> well_formed s')
  /\ exists ts,
       calls w' = calls w ++ map (fun t => CallPutRecords (record_buf t) (stream_name s)) ts
       /\ Forall (fun t => record_buf t <> [] /\ (well_formed s -> well_formed t)) ts.

(** A request as the service wants it: for [stream], and a batch with 1 to
    500 one-key records of at most 5 MiB in all, or a single record. *)
Definition request_ok {env : Environment} (stream : string) (c : Call) : Prop :=
  match c with
  | CallPutRecord kwargs => kw_StreamName kwargs = stream
  | CallPutRecords Records StreamName =>
      StreamName = stream
      /\ Records <> []
      /\ Z.of_nat (List.length Records) <= MAX_RECORDS_IN_BATCH
      /\ (sum_sizes Records <= MAX_BATCH_SIZE \/ exists d, Records = [d])
      /\ Forall one_key Records
  end.

(** Two outcomes of the loop of [put_records] run from the result lists
    [resp] and [resp0]: the same producer and world, and either both raise
    or both return their list extended by the same responses. *)
Definition shifted (resp resp0 : list (option Response))
    (x y : Outcome (list (option Response)) * Producer * World) : Prop :=
  match x, y with
  | (Returned a, s1, w1), (Returned b, s2, w2) =>
      s1 = s2 /\ w1 = w2 /\ exists t, a = resp ++ t /\ b = resp0 ++ t
  | (Raised _, s1, w1), (Raised _, s2, w2) => s1 = s2 /\ w1 = w2
  | _, _ => False
  end.

(** The entries of a result list that are responses of the client. *)
Definition answered (resp : list (option Response)) : list Response :=
  flat_map (fun r => match r with Some x => [x] | None => [] end) resp.

(** The datums of [records] by the keys given: the explicit hash key if
    there is one, else the partition key if there is one, else for each
    record the default key of its own clock reading, from [c] on. *)
Definition keyed_datums {env : Environment} (records : list bytes)
    (partition_key explicit_hash_key : option string) (c : nat) : list Datum :=
  if truthy explicit_hash_key then map (mkDatum explicit_hash_key None) records
  else if truthy partition_key then map (mkDatum None partition_key) records
  else map (fun cr => mkDatum None (Some (default_key_at (fst cr))) (snd cr))
           (combine (List.seq c (List.length records)) records).

(** A client whose answers to [put_record] carry no ['SequenceNumber']. *)
Definition silent_put_record (h : list Call) (kwargs : PutRecordKwargs)
  : Exn + Response :=
  inr [("ShardId", "shardId-000000000000")].

Definition silent_env : Environment :=
  Build_Environment spec_sizeof_bytes spec_sizeof_datum demo_process_time demo_time
                    silent_put_record accepting_put_records.

(** A client that refuses every [put_record] call. *)
Definition refusing_put_record (h : list Call) (kwargs : PutRecordKwargs)
  : Exn + Response :=
  inl (ClientError "ProvisionedThroughputExceededException").

Definition refusing_env : Environment :=
  Build_Environment spec_sizeof_bytes spec_sizeof_datum demo_process_time demo_time
                    refusing_put_record refusing_once_put_records.

(** ** Properties *)

Section Properties.

Context {env : Environment}.

(** *** [flush] *)

Lemma flush_empty (s : Producer) (w : World) :
  record_buf s = [] -> flush s w = (Returned None, s, w).
Proof.
  intros Hb. unfold flush, bind, get_self. rewrite Hb. reflexivity.
Qed.

Lemma flush_sends (s : Producer) (w : World) :
  record_buf s <> [] ->
  flush s w =
    match client_put_records (calls w) (record_buf s) (stream_name s) with
    | inr resp =>
        (Returned (Some resp), with_buf s [] 0,
         logged w (CallPutRecords (record_buf s) (stream_name s)))
    | inl e => (Raised e, s, logged w (CallPutRecords (record_buf s) (stream_name s)))
    end.
Proof.
  intros Hb. unfold flush, bind, get_self, kinesis_put_records, logged.
  destruct (record_buf s) as [|d b] eqn:E; [congruence|]. cbn [List.length Nat.eqb].
  destruct (client_put_records (calls w) (d :: b) (stream_name s)); reflexivity.
Qed.

(** *** [put_record] *)

(** What one [put_record] call does: one call to the client, carrying
    [self.seq] when the producer is ordered; the buffer is not touched, and
    [self.seq] changes only after an answer, and only when ordered. *)
Lemma put_record_step (r : bytes) (pk ehk : option string) (s : Producer) (w : World) :
  exists o s' c kw,
    put_record r pk ehk s w = (o, s', mkWorld c (calls w ++ [CallPutRecord kw]))
    /\ kw_SequenceNumberForOrdering kw = (if ordered s then Some (seq s) else None)
    /\ kw_StreamName kw = stream_name s
    /\ kw_Data kw = r
    /\ s' = match o with
            | Returned resp =>
                if ordered s then with_seq s (dict_get "SequenceNumber" resp) else s
            | Raised _ => s
            end.
Proof.
  unfold put_record, bind, get_self, kinesis_put_record, or_default,
    _get_default_partition_key, ret, set_self.
  destruct pk as [k|]; cbn [clock calls];
    match goal with
    | |- context [truthy (Some ?x)] => destruct (truthy (Some x))
    end;
    cbn [clock calls];
    match goal with
    | |- context [client_put_record ?h ?k] => destruct (client_put_record h k) as [e|resp]
    end;
    destruct (ordered s) eqn:Eo; destruct (truthy ehk);
    do 4 eexists; (split; [reflexivity|]); cbn; rewrite ?Eo; auto.
Qed.

Lemma put_record_with_buf (r : bytes) (pk ehk : option string) (s : Producer) (w : World)
    (b : list Datum) (n : Z) :
  put_record r pk ehk (with_buf s b n) w =
    let '(o, s', w') := put_record r pk ehk s w in (o, with_buf s' b n, w').
Proof.
  unfold put_record, bind, get_self, kinesis_put_record, or_default,
    _get_default_partition_key, ret, set_self.
  destruct pk as [k|]; cbn [clock calls];
    match goal with
    | |- context [truthy (Some ?x)] => destruct (truthy (Some x))
    end;
    cbn [clock calls stream_name with_buf ordered seq];
    match goal with
    | |- context [client_put_record ?h ?k] => destruct (client_put_record h k) as [e|resp]
    end;
    destruct (ordered s) eqn:Eo; destruct (truthy ehk); cbn; rewrite ?Eo; reflexivity.
Qed.

Lemma last_cons_default {A} (l : list A) (a d : A) : last (a :: l) d = last l a.
Proof.
  revert a d. induction l as [|b l IH]; intros a d; [reflexivity|].
  change (last (a :: b :: l) d) with (last (b :: l) d). rewrite !IH. reflexivity.
Qed.

(** A run of [put_record] calls: the requests logged, their tokens, and the
    token left in the producer. *)
Lemma put_record_series_tokens (args : list (bytes * option string * option string)) :
  forall (s : Producer) (w : World) out s' w',
    put_record_series args s w = (out, s', w') ->
    exists kws,
      calls w' = calls w ++ map CallPutRecord kws
      /\ ordered s' = ordered s
      /\ (ordered s = false ->
          Forall (fun kw => kw_SequenceNumberForOrdering kw = None) kws /\ seq s' = seq s)
      /\ (ordered s = true -> forall resps, out = Returned resps ->
          List.length kws = List.length args
          /\ List.length resps = List.length args
          /\ map kw_SequenceNumberForOrdering kws =
             map Some (firstn (List.length args)
                              (seq s :: map (dict_get "SequenceNumber") resps))
          /\ seq s' = last (map (dict_get "SequenceNumber") resps) (seq s)).
Proof.
  induction args as [|[[r pk] ehk] args IH]; intros s w out s' w' H.
  - cbn in H. injection H as <- <- <-. exists []. cbn. rewrite app_nil_r.
    repeat split; auto. all: intros; try congruence.
    all: match goal with H : Returned _ = Returned _ |- _ => injection H as <- end; reflexivity.
  - cbn [put_record_series] in H. unfold bind in H.
    destruct (put_record_step r pk ehk s w) as (o & s1 & c & kw & E & Hseq & _ & _ & Hs1).
    rewrite E in H. destruct o as [resp|e].
    + destruct (put_record_series args s1 (mkWorld c (calls w ++ [CallPutRecord kw])))
        as [[o2 s2] w2] eqn:E2.
      apply IH in E2. destruct E2 as (kws & Hc & Ho & Hun & Hord).
      assert (Hos1 : ordered s1 = ordered s)
        by (subst s1; destruct (ordered s) eqn:Eo; cbn; congruence).
      assert (s' = s2 /\ w' = w2) as [-> ->] by (destruct o2; injection H; auto).
      exists (kw :: kws). cbn [calls] in Hc. rewrite Hc, <- app_assoc. cbn [map app].
      split; [reflexivity|]. split; [congruence|]. split.
      * intros Hf. rewrite Hf in *. destruct (Hun Hos1) as [Hall Hs].
        split; [constructor; assumption|]. subst s1. assumption.
      * intros Ht resps Hout. rewrite Ht in *.
        destruct o2 as [resps2|e2]; [|unfold ret in H; congruence].
        unfold ret in H. assert (resps = resp :: resps2) as -> by congruence.
        destruct (Hord Hos1 resps2 eq_refl) as (Hl1 & Hl2 & Hm & Hlast).
        subst s1. cbn [with_seq seq] in *. cbn [List.length map firstn].
        rewrite Hl1, Hl2, Hm, Hseq, Hlast, last_cons_default. auto.
    + injection H as <- <- <-. subst s1. exists [kw]. cbn [map calls].
      split; [reflexivity|]. split; [reflexivity|]. split.
      * intros Hf. rewrite Hf in Hseq. auto.
      * intros _ resps Hr. discriminate.
Qed.

(** C8: with [ordered=True], in a run of N [put_record] calls that all
    return, the request of call k carries as [SequenceNumberForOrdering] the
    ['SequenceNumber'] of the response to call k-1, and the first one carries
    the initial ['0']; with [ordered=False] no request carries the field and
    [self.seq] stays at its initial value, whether the calls return or
    raise. The buffer of the producer is arbitrary. *)
Theorem put_record_sequence_tokens
    (stream : string) (o : bool) (b : list Datum) (n : Z)
    (args : list (bytes * option string * option string)) (w : World) :
  forall out s' w',
    put_record_series args (with_buf (init stream o) b n) w = (out, s', w') ->
    exists kws,
      calls w' = calls w ++ map CallPutRecord kws
      /\ (o = false ->
          Forall (fun kw => kw_SequenceNumberForOrdering kw = None) kws
          /\ seq s' = Some "0")
      /\ (o = true -> forall resps, out = Returned resps ->
          List.length kws = List.length args
          /\ map kw_SequenceNumberForOrdering kws =
             map Some (firstn (List.length args)
                              (Some "0" :: map (dict_get "SequenceNumber") resps))).
Proof.
  intros out s' w' H.
  destruct (put_record_series_tokens args _ _ _ _ _ H) as (kws & Hc & _ & Hun & Hord).
  exists kws. cbn [with_buf init ordered seq] in *. split; [assumption|]. split.
  - assumption.
  - intros Ho resps Hout. destruct (Hord Ho resps Hout) as (H1 & _ & H3 & _). auto.
Qed.

(** C10: [put_record] neither reads nor writes the buffer. Whatever the
    call's outcome, [record_buf] and [buf_size] are as before, the call made
    exactly one request, a [put_record] one (so no flush), and with any
    other buffer in place of the producer's the outcome and the request are
    the same. *)
Theorem put_record_leaves_buffer
    (r : bytes) (pk ehk : option string) (s : Producer) (w : World) :
  exists o s' w' kw,
    put_record r pk ehk s w = (o, s', w')
    /\ record_buf s' = record_buf s
    /\ buf_size s' = buf_size s
    /\ calls w' = calls w ++ [CallPutRecord kw]
    /\ forall b n, put_record r pk ehk (with_buf s b n) w = (o, with_buf s' b n, w').
Proof.
  destruct (put_record_step r pk ehk s w) as (o & s' & c & kw & E & _ & _ & _ & Hs).
  exists o, s', (mkWorld c (calls w ++ [CallPutRecord kw])), kw.
  split; [assumption|].
  assert (Hb : record_buf s' = record_buf s /\ buf_size s' = buf_size s).
  { subst s'. destruct o; [destruct (ordered s)|]; auto. }
  destruct Hb as [Hb1 Hb2]. repeat split; auto.
  intros b n. rewrite put_record_with_buf, E. reflexivity.
Qed.

(** C9: on an empty buffer [flush] returns [None], makes no call to the
    client and leaves producer and world as they were; and whatever the
    buffer, [flush] makes no call or one call that hands a non-empty batch
    to the client, never an empty one. *)
Theorem flush_empty_is_noop (s : Producer) (w : World) :
  (record_buf s = [] -> flush s w = (Returned None, s, w))
  /\ (forall o s' w',
        flush s w = (o, s', w') ->
        calls w' = calls w
        \/ exists b, b <> [] /\ calls w' = calls w ++ [CallPutRecords b (stream_name s)]).
Proof.
  split; [apply flush_empty|].
  intros o s' w' H. destruct (record_buf s) as [|d b] eqn:Hb.
  - rewrite (flush_empty s w Hb) in H. injection H as _ _ <-. left. reflexivity.
  - assert (Hne : record_buf s <> []) by congruence.
    rewrite (flush_sends s w Hne) in H. right. exists (record_buf s).
    split; [exact Hne|].
    destruct (client_put_records (calls w) (record_buf s) (stream_name s));
      injection H as _ _ <-; reflexivity.
Qed.

(** C3: on a non-empty buffer [flush] hands the buffer to the client and
    clears [record_buf] and [buf_size] only when the client answers; when
    the client raises, the exception is the outcome of [flush] and the
    producer is the one before the call, so that a second [flush] sends the
    same records again. *)
Theorem flush_failure_keeps_buffer (s : Producer) (w : World) :
  record_buf s <> [] ->
  let w1 := logged w (CallPutRecords (record_buf s) (stream_name s)) in
  match client_put_records (calls w) (record_buf s) (stream_name s) with
  | inr resp => flush s w = (Returned (Some resp), with_buf s [] 0, w1)
  | inl e =>
      flush s w = (Raised e, s, w1)
      /\ exists o s2,
           flush s w1 = (o, s2, logged w1 (CallPutRecords (record_buf s) (stream_name s)))
  end.
Proof.
  intros Hb w1. pose proof (flush_sends s w Hb) as H.
  destruct (client_put_records (calls w) (record_buf s) (stream_name s)) as [e|resp];
    [|exact H].
  split; [exact H|]. pose proof (flush_sends s w1 Hb) as H1.
  destruct (client_put_records (calls w1) (record_buf s) (stream_name s));
    do 2 eexists; exact H1.
Qed.

(** *** One turn of the loop of [put_records] *)

Lemma put_records_body_halves (r : bytes) (pk ehk : option string)
    (resp : list (option Response)) (n : Z) (s : Producer) (w : World) :
  put_records_body r pk ehk resp n s w =
    (resp1 <- count_check resp ;; add_record r pk ehk resp1 n) s w.
Proof. reflexivity. Qed.

Lemma flush_into_empty (resp : list (option Response)) (s : Producer) (w : World) :
  record_buf s = [] -> flush_into resp s w = (Returned (resp ++ [None]), s, w).
Proof.
  intros Hb. unfold flush_into, bind. rewrite (flush_empty s w Hb). reflexivity.
Qed.

Lemma flush_into_sends (resp : list (option Response)) (s : Producer) (w : World) :
  record_buf s <> [] ->
  flush_into resp s w =
    match client_put_records (calls w) (record_buf s) (stream_name s) with
    | inr rsp =>
        (Returned (resp ++ [Some rsp]), with_buf s [] 0,
         logged w (CallPutRecords (record_buf s) (stream_name s)))
    | inl e => (Raised e, s, logged w (CallPutRecords (record_buf s) (stream_name s)))
    end.
Proof.
  intros Hb. unfold flush_into, bind. rewrite (flush_sends s w Hb).
  destruct (client_put_records (calls w) (record_buf s) (stream_name s)); reflexivity.
Qed.

Lemma make_datum_eq (r : bytes) (pk ehk : option string) (s : Producer) (w : World) :
  make_datum r pk ehk s w =
    (Returned (datum_at r pk ehk (clock w)), s,
     mkWorld (clock_after pk ehk (clock w)) (calls w)).
Proof.
  unfold make_datum, datum_at, clock_after, reads_clock, or_default, bind, ret,
    _get_default_partition_key.
  destruct w as [c cs]. cbn [clock calls].
  destruct (truthy ehk); cbn [negb andb]; [reflexivity|].
  destruct pk as [k|]; [destruct (truthy (Some k))|]; reflexivity.
Qed.

Lemma count_check_below (resp : list (option Response)) (s : Producer) (w : World) :
  Z.of_nat (List.length (record_buf s)) <> MAX_RECORDS_IN_BATCH ->
  count_check resp s w = (Returned resp, s, w).
Proof.
  intros H. unfold count_check, bind, get_self.
  apply Z.eqb_neq in H. rewrite H. reflexivity.
Qed.

Lemma count_check_full (resp : list (option Response)) (s : Producer) (w : World) :
  Z.of_nat (List.length (record_buf s)) = MAX_RECORDS_IN_BATCH ->
  count_check resp s w =
    match client_put_records (calls w) (record_buf s) (stream_name s) with
    | inr rsp =>
        (Returned (resp ++ [Some rsp]), with_buf s [] 0,
         logged w (CallPutRecords (record_buf s) (stream_name s)))
    | inl e => (Raised e, s, logged w (CallPutRecords (record_buf s) (stream_name s)))
    end.
Proof.
  intros H. unfold count_check, bind, get_self.
  rewrite (proj2 (Z.eqb_eq _ _) H). apply flush_into_sends.
  intros Hb. rewrite Hb in H. discriminate H.
Qed.

Lemma add_record_oversized (r : bytes) (pk ehk : option string)
    (resp : list (option Response)) (n : Z) (s : Producer) (w : World) :
  _sizeof_bytes r > MAX_RECORD_SIZE ->
  add_record r pk ehk resp n s w =
    (Raised (ValueError n MAX_RECORD_SIZE (_sizeof_bytes r) r), s, w).
Proof.
  intros H. unfold add_record. rewrite (proj2 (Z.gtb_gt _ _) H). reflexivity.
Qed.

Lemma add_record_fits (r : bytes) (pk ehk : option string)
    (resp : list (option Response)) (n : Z) (s : Producer) (w : World) :
  _sizeof_bytes r <= MAX_RECORD_SIZE ->
  let d := datum_at r pk ehk (clock w) in
  let w1 := mkWorld (clock_after pk ehk (clock w)) (calls w) in
  buf_size s + _sizeof_datum d <= MAX_BATCH_SIZE ->
  add_record r pk ehk resp n s w =
    (Returned resp, with_buf s (record_buf s ++ [d]) (buf_size s + _sizeof_datum d), w1).
Proof.
  intros Hr d w1 Hd. unfold add_record.
  assert (E1 : (_sizeof_bytes r >? MAX_RECORD_SIZE) = false) by (rewrite Z.gtb_ltb; apply Z.ltb_ge; lia).
  rewrite E1. unfold bind at 1. rewrite make_datum_eq. fold d w1.
  unfold bind, get_self, set_self, ret.
  assert (E2 : (buf_size s + _sizeof_datum d >? MAX_BATCH_SIZE) = false) by (rewrite Z.gtb_ltb; apply Z.ltb_ge; lia).
  rewrite E2. reflexivity.
Qed.

Lemma add_record_overflows (r : bytes) (pk ehk : option string)
    (resp : list (option Response)) (n : Z) (s : Producer) (w : World) :
  _sizeof_bytes r <= MAX_RECORD_SIZE ->
  let d := datum_at r pk ehk (clock w) in
  let w1 := mkWorld (clock_after pk ehk (clock w)) (calls w) in
  buf_size s + _sizeof_datum d > MAX_BATCH_SIZE ->
  add_record r pk ehk resp n s w =
    match flush_into resp s w1 with
    | (Returned resp2, s2, w2) =>
        (Returned resp2,
         with_buf s2 (record_buf s2 ++ [d]) (buf_size s2 + _sizeof_datum d), w2)
    | (Raised e, s2, w2) => (Raised e, s2, w2)
    end.
Proof.
  intros Hr d w1 Hd. unfold add_record.
  assert (E1 : (_sizeof_bytes r >? MAX_RECORD_SIZE) = false) by (rewrite Z.gtb_ltb; apply Z.ltb_ge; lia).
  rewrite E1. unfold bind at 1. rewrite make_datum_eq. fold d w1.
  unfold bind at 1. unfold get_self at 1. unfold bind at 1.
  rewrite (proj2 (Z.gtb_gt _ _) Hd).
  destruct (flush_into resp s w1) as [[[resp2|e] s2] w2]; reflexivity.
Qed.

Lemma flush_into_cases (resp : list (option Response)) (s : Producer) (w : World) :
  let w1 := logged w (CallPutRecords (record_buf s) (stream_name s)) in
  (record_buf s = [] /\ flush_into resp s w = (Returned (resp ++ [None]), s, w))
  \/ (record_buf s <> [] /\ exists rsp,
        client_put_records (calls w) (record_buf s) (stream_name s) = inr rsp
        /\ flush_into resp s w = (Returned (resp ++ [Some rsp]), with_buf s [] 0, w1))
  \/ (record_buf s <> [] /\ exists e,
        client_put_records (calls w) (record_buf s) (stream_name s) = inl e
        /\ flush_into resp s w = (Raised e, s, w1)).
Proof.
  intros w1. subst w1. destruct (record_buf s) as [|d b] eqn:Hb.
  - left. split; [reflexivity|]. apply flush_into_empty. assumption.
  - right. assert (Hne : record_buf s <> []) by congruence.
    pose proof (flush_into_sends resp s w Hne) as H. rewrite Hb in H.
    destruct (client_put_records (calls w) (d :: b) (stream_name s)) as [e|rsp].
    + right. split; [congruence|]. exists e. auto.
    + left. split; [congruence|]. exists rsp. auto.
Qed.

(** *** The invariant of the buffer *)

Lemma sum_sizes_app (b : list Datum) (d : Datum) :
  sum_sizes (b ++ [d]) = sum_sizes b + _sizeof_datum d.
Proof.
  induction b as [|x b IH]; cbn [sum_sizes fold_right app].
  - lia.
  - unfold sum_sizes in IH. rewrite IH. lia.
Qed.

Lemma buffer_invariant_cleared (s : Producer) : buffer_invariant (with_buf s [] 0).
Proof.
  unfold buffer_invariant, MAX_RECORDS_IN_BATCH, MAX_BATCH_SIZE, MAX_RECORD_SIZE.
  cbn. repeat split; lia.
Qed.

Lemma flush_invariant (s : Producer) (w : World) o s' w' :
  buffer_invariant s -> flush s w = (o, s', w') -> buffer_invariant s'.
Proof.
  intros Hinv H. destruct (record_buf s) as [|d b] eqn:Hb.
  - rewrite (flush_empty s w Hb) in H. congruence.
  - assert (Hne : record_buf s <> []) by congruence.
    rewrite (flush_sends s w Hne) in H.
    destruct (client_put_records (calls w) (record_buf s) (stream_name s));
      injection H as <- <- <-; auto using buffer_invariant_cleared.
Qed.

Lemma add_record_invariant (r : bytes) (pk ehk : option string)
    (resp : list (option Response)) (n : Z) (s : Producer) (w : World) o s' w' :
  buffer_invariant s ->
  Z.of_nat (List.length (record_buf s)) < MAX_RECORDS_IN_BATCH ->
  add_record r pk ehk resp n s w = (o, s', w') ->
  buffer_invariant s'.
Proof.
  intros Hinv Hlen H.
  destruct (Z_gt_le_dec (_sizeof_bytes r) MAX_RECORD_SIZE) as [Hr|Hr].
  { rewrite (add_record_oversized r pk ehk resp n s w Hr) in H. congruence. }
  set (d := datum_at r pk ehk (clock w)).
  destruct (Z_gt_le_dec (buf_size s + _sizeof_datum d) MAX_BATCH_SIZE) as [Hd|Hd].
  - rewrite (add_record_overflows r pk ehk resp n s w Hr Hd) in H.
    destruct (flush_into_cases resp s (mkWorld (clock_after pk ehk (clock w)) (calls w)))
      as [[Hb Hf]|[(Hb & rsp & _ & Hf)|(Hb & e & _ & Hf)]];
      rewrite Hf in H; injection H as <- <- <-; [| |assumption].
    + destruct Hinv as (Hsum & _ & _). rewrite Hb in *.
      unfold buffer_invariant, MAX_RECORDS_IN_BATCH. cbn in *. fold d.
      repeat split; try lia. right. eexists; reflexivity.
    + unfold buffer_invariant, MAX_RECORDS_IN_BATCH. cbn. fold d.
      repeat split; try lia. right. eexists; reflexivity.
  - rewrite (add_record_fits r pk ehk resp n s w Hr Hd) in H. injection H as <- <- <-.
    destruct Hinv as (Hsum & _ & _). fold d.
    unfold buffer_invariant. cbn [with_buf record_buf buf_size].
    rewrite sum_sizes_app, length_app, Nat2Z.inj_add. cbn [List.length].
    repeat split; lia.
Qed.

Lemma put_records_body_invariant (r : bytes) (pk ehk : option string)
    (resp : list (option Response)) (n : Z) (s : Producer) (w : World) o s' w' :
  buffer_invariant s ->
  put_records_body r pk ehk resp n s w = (o, s', w') ->
  buffer_invariant s'.
Proof.
  intros Hinv H. rewrite put_records_body_halves in H. unfold bind at 1 in H.
  destruct (Z.eq_dec (Z.of_nat (List.length (record_buf s))) MAX_RECORDS_IN_BATCH) as [Hl|Hl].
  - rewrite (count_check_full resp s w Hl) in H.
    destruct (client_put_records (calls w) (record_buf s) (stream_name s)).
    + congruence.
    + eapply add_record_invariant; [apply buffer_invariant_cleared| |exact H].
      cbn. unfold MAX_RECORDS_IN_BATCH. lia.
  - rewrite (count_check_below resp s w Hl) in H.
    eapply add_record_invariant; [exact Hinv| |exact H].
    destruct Hinv as (_ & Hle & _). lia.
Qed.

Lemma put_records_loop_invariant (records : list bytes) (pk ehk : option string) :
  forall resp n s w o s' w',
    buffer_invariant s ->
    put_records_loop records pk ehk resp n s w = (o, s', w') ->
    buffer_invariant s'.
Proof.
  induction records as [|r records IH]; intros resp n s w o s' w' Hinv H.
  - cbn [put_records_loop] in H. unfold ret in H. injection H as <- <- <-. exact Hinv.
  - cbn [put_records_loop] in H. unfold bind in H.
    destruct (put_records_body r pk ehk resp n s w) as [[o1 s1] w1] eqn:E.
    apply (put_records_body_invariant _ _ _ _ _ _ _ _ _ _ Hinv) in E.
    destruct o1 as [resp1|e]; [eapply IH; eassumption|congruence].
Qed.

Lemma run_op_invariant (op : Op) (s : Producer) (w : World) :
  buffer_invariant s -> buffer_invariant (fst (run_op op s w)).
Proof.
  intros Hinv. destruct op as [r pk ehk|rs pk ehk|]; cbn [run_op].
  - destruct (put_record_step r pk ehk s w) as (o & s' & c & kw & E & _ & _ & _ & Hs).
    rewrite E. cbn [fst]. subst s'.
    destruct o; [destruct (ordered s)|]; exact Hinv.
  - destruct (put_records rs pk ehk s w) as [[o s'] w'] eqn:E. cbn [fst].
    eapply put_records_loop_invariant; [exact Hinv|exact E].
  - destruct (flush s w) as [[o s'] w'] eqn:E. cbn [fst].
    eapply flush_invariant; eassumption.
Qed.

Lemma run_ops_invariant (ops : list Op) :
  forall s w, buffer_invariant s -> buffer_invariant (fst (run_ops ops s w)).
Proof.
  induction ops as [|op ops IH]; intros s w Hinv; [exact Hinv|].
  cbn [run_ops]. pose proof (run_op_invariant op s w Hinv) as H.
  destruct (run_op op s w) as [s1 w1]. apply IH. exact H.
Qed.

(** C2, as it holds: after every run of public operations on a new
    producer, whether they returned or raised, [buf_size] is the sum of the
    sizes of the entries of [record_buf], [record_buf] holds at most 500
    entries, and [buf_size] is at most 5 MiB unless [record_buf] holds a
    single entry (which then is larger than 5 MiB by itself). *)
Theorem buffer_invariant_after_ops (stream : string) (o : bool) (ops : list Op) (w : World) :
  buffer_invariant (fst (run_ops ops (init stream o) w)).
Proof.
  apply run_ops_invariant. unfold init, buffer_invariant, MAX_RECORDS_IN_BATCH,
    MAX_BATCH_SIZE, MAX_RECORD_SIZE. cbn. repeat split; lia.
Qed.

(** *** Nothing is lost and nothing is sent twice *)

Lemma sent_app (cs1 cs2 : list Call) : sent (cs1 ++ cs2) = sent cs1 ++ sent cs2.
Proof. unfold sent. apply flat_map_app. Qed.

Lemma conserves_ret {A} (a : A) (s : Producer) (w : World) : conserves (ret a) s w [].
Proof.
  exists a, s, w, []. cbn. rewrite !app_nil_r. repeat split; auto.
Qed.

Lemma conserves_bind {A B} (m : M A) (f : A -> M B) (s : Producer) (w : World)
    (added1 added2 : list bytes) :
  conserves m s w added1 ->
  (forall a s1 w1, m s w = (Returned a, s1, w1) -> conserves (f a) s1 w1 added2) ->
  conserves (bind m f) s w (added1 ++ added2).
Proof.
  intros (a & s1 & w1 & new1 & E1 & Hc1 & Hd1 & Hn1 & Hf1) Hk.
  destruct (Hk a s1 w1 E1) as (b & s2 & w2 & new2 & E2 & Hc2 & Hd2 & Hn2 & Hf2).
  exists b, s2, w2, (new1 ++ new2). unfold bind. rewrite E1.
  split; [exact E2|]. split; [rewrite Hc2, Hc1, app_assoc; reflexivity|].
  split.
  - rewrite sent_app, map_app, <- app_assoc, Hd2, app_assoc, Hd1, app_assoc. reflexivity.
  - split; [congruence|]. apply Forall_app. split; [assumption|].
    rewrite <- Hn1. assumption.
Qed.

Section ClientAnswers.

Hypothesis client_answers : put_records_succeeds env.

Lemma conserves_flush_into (resp : list (option Response)) (s : Producer) (w : World) :
  conserves (flush_into resp) s w [].
Proof.
  destruct (flush_into_cases resp s w) as [[Hb Hf]|[(Hb & rsp & _ & Hf)|(Hb & e & He & _)]].
  - exists (resp ++ [None]), s, w, []. cbn. rewrite !app_nil_r. repeat split; auto.
  - exists (resp ++ [Some rsp]), (with_buf s [] 0),
      (logged w (CallPutRecords (record_buf s) (stream_name s))),
      [CallPutRecords (record_buf s) (stream_name s)].
    cbn. rewrite !app_nil_r. repeat split; auto.
    constructor; [|constructor]. exists (record_buf s). auto.
  - destruct (client_answers (calls w) (record_buf s) (stream_name s)) as [rsp Hr].
    congruence.
Qed.

Lemma conserves_flush (s : Producer) (w : World) : conserves flush s w [].
Proof.
  destruct (conserves_flush_into [] s w) as (a & s' & w' & new & E & H).
  unfold flush_into, bind in E.
  destruct (flush s w) as [[[r0|e] s1] w1] eqn:F; [|discriminate].
  unfold ret in E. injection E as _ <- <-. exists r0, s1, w1, new. auto.
Qed.

Lemma conserves_count_check (resp : list (option Response)) (s : Producer) (w : World) :
  conserves (count_check resp) s w [].
Proof.
  unfold count_check. change [] with (@nil bytes ++ []).
  apply conserves_bind.
  - exists s, s, w, []. cbn. rewrite !app_nil_r. repeat split; auto.
  - intros a s1 w1 E. unfold get_self in E. injection E as <- <- <-.
    destruct (Z.of_nat (List.length (record_buf s)) =? MAX_RECORDS_IN_BATCH).
    + apply conserves_flush_into.
    + apply conserves_ret.
Qed.

Lemma datum_at_Data (r : bytes) (pk ehk : option string) (c : nat) :
  Data (datum_at r pk ehk c) = r.
Proof.
  unfold datum_at. destruct (truthy ehk); [|destruct (truthy pk)]; reflexivity.
Qed.

Lemma conserves_add_record (r : bytes) (pk ehk : option string)
    (resp : list (option Response)) (n : Z) (s : Producer) (w : World) :
  _sizeof_bytes r <= MAX_RECORD_SIZE ->
  conserves (add_record r pk ehk resp n) s w [r].
Proof.
  intros Hr. set (d := datum_at r pk ehk (clock w)).
  set (w1 := mkWorld (clock_after pk ehk (clock w)) (calls w)).
  destruct (Z_gt_le_dec (buf_size s + _sizeof_datum d) MAX_BATCH_SIZE) as [Hd|Hd].
  - destruct (conserves_flush_into resp s w1)
      as (resp2 & s2 & w2 & new & E & Hc & Hdata & Hn & Hf).
    exists resp2, (with_buf s2 (record_buf s2 ++ [d]) (buf_size s2 + _sizeof_datum d)),
      w2, new.
    rewrite (add_record_overflows r pk ehk resp n s w Hr Hd). fold d w1. rewrite E.
    cbn [with_buf record_buf stream_name]. repeat split; auto.
    rewrite map_app, app_assoc, Hdata, app_nil_r. cbn [map]. subst d.
    rewrite datum_at_Data. reflexivity.
  - exists resp, (with_buf s (record_buf s ++ [d]) (buf_size s + _sizeof_datum d)), w1, [].
    rewrite (add_record_fits r pk ehk resp n s w Hr Hd). fold d w1.
    cbn [with_buf record_buf stream_name sent flat_map map app calls w1].
    rewrite app_nil_r, map_app. cbn [map]. subst d. rewrite datum_at_Data.
    repeat split; auto.
Qed.

Lemma conserves_put_records_body (r : bytes) (pk ehk : option string)
    (resp : list (option Response)) (n : Z) (s : Producer) (w : World) :
  _sizeof_bytes r <= MAX_RECORD_SIZE ->
  conserves (put_records_body r pk ehk resp n) s w [r].
Proof.
  intros Hr.
  assert (H : conserves (resp1 <- count_check resp ;; add_record r pk ehk resp1 n) s w
                        ([] ++ [r])).
  { apply conserves_bind; [apply conserves_count_check|].
    intros; apply conserves_add_record; assumption. }
  exact H.
Qed.

Lemma conserves_put_records_loop (records : list bytes) (pk ehk : option string) :
  Forall (fun r => _sizeof_bytes r <= MAX_RECORD_SIZE) records ->
  forall resp n s w, conserves (put_records_loop records pk ehk resp n) s w records.
Proof.
  induction 1 as [|r records Hr _ IH]; intros resp n s w.
  - apply conserves_ret.
  - cbn [put_records_loop]. change (r :: records) with ([r] ++ records).
    apply conserves_bind; [apply conserves_put_records_body; assumption|].
    intros; apply IH.
Qed.

Lemma conserves_put_records_series
    (batches : list (list bytes * option string * option string)) :
  Forall (fun b => Forall (fun r => _sizeof_bytes r <= MAX_RECORD_SIZE) (fst (fst b)))
         batches ->
  forall s w,
    conserves (put_records_series batches) s w (List.concat (map (fun b => fst (fst b)) batches)).
Proof.
  induction 1 as [|[[records pk] ehk] batches Hb _ IH]; intros s w.
  - apply conserves_ret.
  - cbn [put_records_series map List.concat fst].
    apply conserves_bind; [apply conserves_put_records_loop; exact Hb|].
    intros resp s1 w1 _.
    rewrite <- (app_nil_r (List.concat _)).
    apply conserves_bind; [apply IH|]. intros; apply conserves_ret.
Qed.

End ClientAnswers.

(** C1: when the client answers every call and every record is at most
    1 MiB, any series of [put_records] calls followed by [flush] returns,
    and the payloads of the batches handed to the client, in the order of
    the calls, are what the buffer held before (nothing, for a new producer)
    followed by the records of the input in their order, each once; every
    call made hands a non-empty batch to the producer's stream and the
    buffer is left empty. *)
Theorem put_records_then_flush_sends_all
    (s : Producer) (w : World)
    (batches : list (list bytes * option string * option string)) :
  put_records_succeeds env ->
  Forall (fun b => Forall (fun r => _sizeof_bytes r <= MAX_RECORD_SIZE) (fst (fst b)))
         batches ->
  exists resps r0 s' w' new,
    (resps <- put_records_series batches ;; r0 <- flush ;; ret (resps, r0)) s w
      = (Returned (resps, r0), s', w')
    /\ calls w' = calls w ++ new
    /\ map Data (sent new) =
       map Data (record_buf s) ++ List.concat (map (fun b => fst (fst b)) batches)
    /\ Forall (is_batch_for (stream_name s)) new
    /\ record_buf s' = [].
Proof.
  intros Hok Hsz.
  destruct (conserves_put_records_series Hok batches Hsz s w)
    as (resps & s1 & w1 & new1 & E1 & Hc1 & Hd1 & Hn1 & Hf1).
  unfold bind. rewrite E1.
  destruct (record_buf s1) as [|d b] eqn:Hb.
  - rewrite (flush_empty s1 w1 Hb). unfold ret.
    exists resps, None, s1, w1, new1. cbn [map] in Hd1. rewrite app_nil_r in Hd1.
    repeat split; auto.
  - assert (Hne : record_buf s1 <> []) by congruence.
    rewrite (flush_sends s1 w1 Hne).
    destruct (Hok (calls w1) (record_buf s1) (stream_name s1)) as [rsp Hr]. rewrite Hr.
    unfold ret.
    exists resps, (Some rsp), (with_buf s1 [] 0),
      (logged w1 (CallPutRecords (record_buf s1) (stream_name s1))),
      (new1 ++ [CallPutRecords (record_buf s1) (stream_name s1)]).
    split; [reflexivity|]. cbn [logged calls]. rewrite Hc1, <- app_assoc.
    split; [reflexivity|]. split.
    + rewrite sent_app, map_app. cbn [sent flat_map batch_of]. rewrite app_nil_r.
      rewrite Hb. exact Hd1.
    + split; [|reflexivity]. apply Forall_app. split; [assumption|].
      constructor; [|constructor]. exists (record_buf s1). rewrite Hn1. auto.
Qed.

(** *** An oversized record *)

Lemma put_records_loop_app (pre rest : list bytes) (pk ehk : option string) :
  forall resp n s w,
    put_records_loop (pre ++ rest) pk ehk resp n s w =
      match put_records_loop pre pk ehk resp n s w with
      | (Returned resp1, s1, w1) =>
          put_records_loop rest pk ehk resp1 (n + Z.of_nat (List.length pre)) s1 w1
      | (Raised e, s1, w1) => (Raised e, s1, w1)
      end.
Proof.
  induction pre as [|r pre IH]; intros resp n s w.
  - cbn. rewrite Z.add_0_r. reflexivity.
  - cbn [app put_records_loop]. unfold bind.
    destruct (put_records_body r pk ehk resp n s w) as [[[resp1|e] s1] w1]; [|reflexivity].
    rewrite IH. replace (n + 1 + Z.of_nat (List.length pre))
      with (n + Z.of_nat (List.length (r :: pre))) by (cbn [List.length]; lia).
    reflexivity.
Qed.

(** A turn of the loop at a record that is too large: the count check has
    been made, and its flush if the buffer was full, before the size of the
    record is looked at. *)
Lemma put_records_body_oversized (r : bytes) (pk ehk : option string)
    (resp : list (option Response)) (n : Z) (s : Producer) (w : World) :
  _sizeof_bytes r > MAX_RECORD_SIZE ->
  put_records_body r pk ehk resp n s w =
    if Z.of_nat (List.length (record_buf s)) =? MAX_RECORDS_IN_BATCH
    then match client_put_records (calls w) (record_buf s) (stream_name s) with
         | inr _ =>
             (Raised (ValueError n MAX_RECORD_SIZE (_sizeof_bytes r) r),
              with_buf s [] 0, logged w (CallPutRecords (record_buf s) (stream_name s)))
         | inl e =>
             (Raised e, s, logged w (CallPutRecords (record_buf s) (stream_name s)))
         end
    else (Raised (ValueError n MAX_RECORD_SIZE (_sizeof_bytes r) r), s, w).
Proof.
  intros Hr. rewrite put_records_body_halves. unfold bind.
  destruct (Z.eqb_spec (Z.of_nat (List.length (record_buf s))) MAX_RECORDS_IN_BATCH)
    as [Hl|Hl].
  - rewrite (count_check_full resp s w Hl).
    destruct (client_put_records (calls w) (record_buf s) (stream_name s)); [reflexivity|].
    apply add_record_oversized. assumption.
  - rewrite (count_check_below resp s w Hl). apply add_record_oversized. assumption.
Qed.

Lemma put_records_at_oversized (pre post : list bytes) (r : bytes) (pk ehk : option string)
    (s : Producer) (w : World) resp1 s1 w1 :
  put_records pre pk ehk s w = (Returned resp1, s1, w1) ->
  _sizeof_bytes r > MAX_RECORD_SIZE ->
  put_records (pre ++ r :: post) pk ehk s w =
    put_records_body r pk ehk resp1 (1 + Z.of_nat (List.length pre)) s1 w1.
Proof.
  intros Hpre Hr. unfold put_records in *. rewrite put_records_loop_app, Hpre.
  cbn [put_records_loop]. unfold bind.
  rewrite (put_records_body_oversized r pk ehk resp1 _ s1 w1 Hr).
  destruct (Z.of_nat (List.length (record_buf s1)) =? MAX_RECORDS_IN_BATCH);
    [destruct (client_put_records (calls w1) (record_buf s1) (stream_name s1))|];
    reflexivity.
Qed.

(** C4, as it holds: when the client answers every call, the records before
    position N are at most 1 MiB each and the record at position N is
    larger, [put_records] raises the [ValueError] made of N (counted from
    1), the limit of 1 MiB, the size of the record and the record. Producer
    and world are then as the call on the records before N alone leaves
    them, so neither record N nor a later one is in the buffer, except that
    a buffer holding 500 entries at that point has been flushed. A call
    whose first record is too large thus leaves the producer unchanged when
    the buffer held other than 500 entries. *)
Theorem put_records_oversized_record
    (pre post : list bytes) (r : bytes) (pk ehk : option string)
    (s : Producer) (w : World) :
  put_records_succeeds env ->
  Forall (fun r => _sizeof_bytes r <= MAX_RECORD_SIZE) pre ->
  _sizeof_bytes r > MAX_RECORD_SIZE ->
  exists resp1 s1 w1,
    put_records pre pk ehk s w = (Returned resp1, s1, w1)
    /\ put_records (pre ++ r :: post) pk ehk s w =
       (Raised (ValueError (1 + Z.of_nat (List.length pre)) MAX_RECORD_SIZE
                           (_sizeof_bytes r) r),
        if Z.of_nat (List.length (record_buf s1)) =? MAX_RECORDS_IN_BATCH
        then with_buf s1 [] 0 else s1,
        if Z.of_nat (List.length (record_buf s1)) =? MAX_RECORDS_IN_BATCH
        then logged w1 (CallPutRecords (record_buf s1) (stream_name s1)) else w1)
    /\ (pre = [] -> s1 = s /\ w1 = w).
Proof.
  intros Hok Hpre Hr.
  destruct (conserves_put_records_loop Hok pre pk ehk Hpre [] 1 s w)
    as (resp1 & s1 & w1 & new & E & _).
  exists resp1, s1, w1. split; [exact E|]. split.
  - rewrite (put_records_at_oversized pre post r pk ehk s w _ _ _ E Hr).
    rewrite (put_records_body_oversized r pk ehk resp1 _ s1 w1 Hr).
    destruct (Z.of_nat (List.length (record_buf s1)) =? MAX_RECORDS_IN_BATCH);
      [|reflexivity].
    destruct (Hok (calls w1) (record_buf s1) (stream_name s1)) as [rsp Hrsp].
    rewrite Hrsp. reflexivity.
  - intros ->. cbn in E. unfold ret in E. injection E as _ <- <-. auto.
Qed.

(** C5: the count check of a turn of the loop comes before the size of the
    record is looked at. When the buffer holds 500 entries as the turn of
    record N starts and record N is larger than 1 MiB, the 500 entries have
    been handed to the client first: if the client answered, the
    [ValueError] for record N is raised with the buffer emptied and its size
    at 0, and that flush stays in place; if the client raised, that is the
    exception of the call and the size of record N was never looked at. *)
Theorem count_flush_precedes_size_check
    (pre post : list bytes) (r : bytes) (pk ehk : option string)
    (s : Producer) (w : World) resp1 s1 w1 :
  put_records pre pk ehk s w = (Returned resp1, s1, w1) ->
  Z.of_nat (List.length (record_buf s1)) = MAX_RECORDS_IN_BATCH ->
  _sizeof_bytes r > MAX_RECORD_SIZE ->
  let w2 := logged w1 (CallPutRecords (record_buf s1) (stream_name s1)) in
  put_records (pre ++ r :: post) pk ehk s w =
    match client_put_records (calls w1) (record_buf s1) (stream_name s1) with
    | inr _ =>
        (Raised (ValueError (1 + Z.of_nat (List.length pre)) MAX_RECORD_SIZE
                            (_sizeof_bytes r) r),
         with_buf s1 [] 0, w2)
    | inl e => (Raised e, s1, w2)
    end.
Proof.
  intros Hpre Hlen Hr w2.
  rewrite (put_records_at_oversized pre post r pk ehk s w _ _ _ Hpre Hr).
  rewrite (put_records_body_oversized r pk ehk resp1 _ s1 w1 Hr).
  rewrite (proj2 (Z.eqb_eq _ _) Hlen). reflexivity.
Qed.

(** *** The flush on size *)

(** A turn of the loop whose datum takes the running size over 5 MiB. *)
Lemma put_records_turn_overflow
    (pre : list bytes) (r : bytes) (pk ehk : option string)
    (s : Producer) (w : World) resp1 s1 w1 rsp :
  put_records pre pk ehk s w = (Returned resp1, s1, w1) ->
  _sizeof_bytes r <= MAX_RECORD_SIZE ->
  buf_size s1 = sum_sizes (record_buf s1) ->
  let d := datum_at r pk ehk (clock w1) in
  buf_size s1 + _sizeof_datum d > MAX_BATCH_SIZE ->
  (record_buf s1 <> [] ->
   client_put_records (calls w1) (record_buf s1) (stream_name s1) = inr rsp) ->
  put_records (pre ++ [r]) pk ehk s w =
    (Returned
       (resp1 ++
        match record_buf s1 with
        | [] => [None]
        | _ :: _ =>
            Some rsp ::
            (if (Z.of_nat (List.length (record_buf s1)) =? MAX_RECORDS_IN_BATCH)
                && (_sizeof_datum d >? MAX_BATCH_SIZE)
             then [None] else [])
        end),
     with_buf s1 [d] (_sizeof_datum d),
     mkWorld (clock_after pk ehk (clock w1))
       (calls w1 ++
        match record_buf s1 with
        | [] => []
        | _ :: _ => [CallPutRecords (record_buf s1) (stream_name s1)]
        end)).
Proof.
  intros Hpre Hr Hsum d Hd Hcl.
  unfold put_records in *. rewrite put_records_loop_app, Hpre.
  cbn [put_records_loop]. unfold bind at 1. rewrite put_records_body_halves.
  unfold bind at 1.
  destruct (Z.eqb_spec (Z.of_nat (List.length (record_buf s1))) MAX_RECORDS_IN_BATCH)
    as [Hl|Hl].
  - assert (Hne : record_buf s1 <> []) by (intros Hb; rewrite Hb in Hl; discriminate Hl).
    rewrite (count_check_full resp1 s1 w1 Hl), (Hcl Hne).
    destruct (record_buf s1) as [|d0 b] eqn:Hb; [congruence|]. rewrite <- Hb.
    set (s2 := with_buf s1 [] 0).
    set (w2 := logged w1 (CallPutRecords (record_buf s1) (stream_name s1))).
    destruct (Z_gt_le_dec (_sizeof_datum d) MAX_BATCH_SIZE) as [Hbig|Hsmall].
    + rewrite (add_record_overflows r pk ehk _ _ s2 w2 Hr)
        by (cbn [s2 w2 with_buf buf_size logged clock]; fold d; lia).
      rewrite flush_into_empty by reflexivity.
      rewrite (proj2 (Z.gtb_gt _ _) Hbig). cbn [andb]. unfold ret.
      rewrite <- !app_assoc. reflexivity.
    + rewrite (add_record_fits r pk ehk _ _ s2 w2 Hr)
        by (cbn [s2 w2 with_buf buf_size logged clock]; fold d; lia).
      assert (E : (_sizeof_datum d >? MAX_BATCH_SIZE) = false)
        by (rewrite Z.gtb_ltb; apply Z.ltb_ge; lia).
      rewrite E. cbn [andb]. unfold ret. reflexivity.
  - rewrite (count_check_below resp1 s1 w1 Hl).
    rewrite (add_record_overflows r pk ehk _ _ s1 w1 Hr Hd). fold d.
    set (w2 := mkWorld (clock_after pk ehk (clock w1)) (calls w1)).
    destruct (record_buf s1) as [|d0 b] eqn:Hb.
    + rewrite (flush_into_empty resp1 s1 w2 Hb). unfold ret.
      rewrite Hsum, Hb, app_nil_r. reflexivity.
    + assert (Hne : record_buf s1 <> []) by congruence.
      rewrite (flush_into_sends resp1 s1 w2 Hne). cbn [w2 calls]. rewrite Hb.
      rewrite (Hcl ltac:(discriminate)). unfold ret. reflexivity.
Qed.

(** C7: a turn of the loop at a record of at most 1 MiB whose datum would
    take the running size over 5 MiB, the client answering: the buffer is
    handed to the client first, the response of the flush is appended to the
    result list, and the datum is then alone in the buffer, whose running
    size is the size of that datum. (On an empty buffer the flush sends
    nothing and its response is [None]; a buffer of 500 entries has been
    flushed by the count check, and a datum larger than 5 MiB by itself then
    adds the [None] of a second, empty flush.) *)
Theorem size_flush_before_add
    (pre : list bytes) (r : bytes) (pk ehk : option string)
    (s : Producer) (w : World) resp1 s1 w1 rsp :
  put_records pre pk ehk s w = (Returned resp1, s1, w1) ->
  _sizeof_bytes r <= MAX_RECORD_SIZE ->
  buf_size s1 = sum_sizes (record_buf s1) ->
  let d := datum_at r pk ehk (clock w1) in
  buf_size s1 + _sizeof_datum d > MAX_BATCH_SIZE ->
  (record_buf s1 <> [] ->
   client_put_records (calls w1) (record_buf s1) (stream_name s1) = inr rsp) ->
  put_records (pre ++ [r]) pk ehk s w =
    (Returned
       (resp1 ++
        match record_buf s1 with
        | [] => [None]
        | _ :: _ =>
            Some rsp ::
            (if (Z.of_nat (List.length (record_buf s1)) =? MAX_RECORDS_IN_BATCH)
                && (_sizeof_datum d >? MAX_BATCH_SIZE)
             then [None] else [])
        end),
     with_buf s1 [d] (_sizeof_datum d),
     mkWorld (clock_after pk ehk (clock w1))
       (calls w1 ++
        match record_buf s1 with
        | [] => []
        | _ :: _ => [CallPutRecords (record_buf s1) (stream_name s1)]
        end)).
Proof. exact (put_records_turn_overflow pre r pk ehk s w resp1 s1 w1 rsp). Qed.

(** *** The flush on count *)

Lemma datums_at_length (records : list bytes) (pk ehk : option string) :
  forall c, List.length (datums_at records pk ehk c) = List.length records.
Proof.
  induction records as [|r records IH]; intros c; cbn; [reflexivity|].
  rewrite IH. reflexivity.
Qed.

Lemma concat_full_batches (batches : list (list Datum)) :
  Forall (fun b => Z.of_nat (List.length b) = MAX_RECORDS_IN_BATCH) batches ->
  Z.of_nat (List.length (List.concat batches))
  = MAX_RECORDS_IN_BATCH * Z.of_nat (List.length batches).
Proof.
  induction 1 as [|b batches Hb _ IH]; [reflexivity|].
  cbn [List.concat List.length]. rewrite length_app, Nat2Z.inj_add, IH, Hb. lia.
Qed.

(** A run of the loop in which no datum takes the running size over 5 MiB:
    the batches sent, all of 500 entries, and the buffer left. *)
Lemma put_records_loop_batches (pk ehk : option string) (records : list bytes) :
  put_records_succeeds env ->
  forall resp n s w,
    Forall (fun r => _sizeof_bytes r <= MAX_RECORD_SIZE) records ->
    0 <= buf_size s ->
    Forall (fun d => 0 <= _sizeof_datum d) (datums_at records pk ehk (clock w)) ->
    buf_size s + sum_sizes (datums_at records pk ehk (clock w)) <= MAX_BATCH_SIZE ->
    Z.of_nat (List.length (record_buf s)) <= MAX_RECORDS_IN_BATCH ->
    exists resps batches s' w',
      put_records_loop records pk ehk resp n s w = (Returned (resp ++ map Some resps), s', w')
      /\ calls w' = calls w ++ map (fun b => CallPutRecords b (stream_name s)) batches
      /\ Forall (fun b => Z.of_nat (List.length b) = MAX_RECORDS_IN_BATCH) batches
      /\ List.length resps = List.length batches
      /\ List.concat batches ++ record_buf s'
         = record_buf s ++ datums_at records pk ehk (clock w)
      /\ Z.of_nat (List.length (record_buf s')) <= MAX_RECORDS_IN_BATCH
      /\ (record_buf s <> [] \/ records <> [] -> record_buf s' <> [])
      /\ stream_name s' = stream_name s.
Proof.
  intros Hok. induction records as [|r records IH];
    intros resp n s w Hvalid H0 Hnn Hsum Hlen.
  - exists [], [], s, w. cbn. rewrite !app_nil_r. repeat split; auto.
    intros [H|H]; congruence.
  - inversion Hvalid as [|? ? Hr Hvalid']; subst.
    cbn [datums_at] in Hnn, Hsum |- *. inversion Hnn as [|? ? Hd0 Hnn']; subst.
    set (d := datum_at r pk ehk (clock w)) in *.
    set (c1 := clock_after pk ehk (clock w)) in *.
    assert (Hrest : 0 <= sum_sizes (datums_at records pk ehk c1)).
    { clear - Hnn'. induction Hnn' as [|x l Hx _ IHl]; cbn; [lia|].
      unfold sum_sizes in IHl. lia. }
    change (sum_sizes (d :: datums_at records pk ehk c1))
      with (_sizeof_datum d + sum_sizes (datums_at records pk ehk c1)) in Hsum.
    cbn [put_records_loop]. unfold bind at 1. rewrite put_records_body_halves.
    unfold bind at 1.
    destruct (Z.eq_dec (Z.of_nat (List.length (record_buf s))) MAX_RECORDS_IN_BATCH)
      as [Hl|Hl].
    + rewrite (count_check_full resp s w Hl).
      destruct (Hok (calls w) (record_buf s) (stream_name s)) as [rsp Hrsp]. rewrite Hrsp.
      rewrite (add_record_fits r pk ehk _ _ (with_buf s [] 0)
                 (logged w (CallPutRecords (record_buf s) (stream_name s))) Hr)
        by (cbn [with_buf buf_size logged clock]; fold d; lia).
      cbn [with_buf buf_size record_buf stream_name ordered seq logged clock calls app].
      fold d c1.
      match goal with
      | |- context [put_records_loop records pk ehk ?rr ?nn ?ss ?ww] =>
          assert (H1 : 0 <= buf_size ss) by (cbn [with_buf buf_size]; lia);
          assert (H2 : Forall (fun d => 0 <= _sizeof_datum d)
                              (datums_at records pk ehk (clock ww))) by exact Hnn';
          assert (H3 : buf_size ss + sum_sizes (datums_at records pk ehk (clock ww))
                       <= MAX_BATCH_SIZE) by (cbn [with_buf buf_size clock]; lia);
          assert (H4 : Z.of_nat (List.length (record_buf ss)) <= MAX_RECORDS_IN_BATCH)
            by (cbn [with_buf record_buf List.length]; unfold MAX_RECORDS_IN_BATCH; lia);
          destruct (IH rr nn ss ww Hvalid' H1 H2 H3 H4)
            as (resps & batches & s' & w' & E & Hc & Hf & Hlr & Hd & Hle & Hne & Hst)
      end.
      cbn [record_buf stream_name calls clock] in *.
      exists (rsp :: resps), (record_buf s :: batches), s', w'.
      rewrite E, Hc, <- !app_assoc. cbn [map app List.concat List.length].
      rewrite <- app_assoc, Hd.
      repeat split; auto. intros _. apply Hne. left. discriminate.
    + rewrite (count_check_below resp s w Hl).
      rewrite (add_record_fits r pk ehk _ _ s w Hr) by (fold d; lia).
      fold d c1.
      match goal with
      | |- context [put_records_loop records pk ehk ?rr ?nn ?ss ?ww] =>
          assert (H1 : 0 <= buf_size ss) by (cbn [with_buf buf_size]; lia);
          assert (H2 : Forall (fun d => 0 <= _sizeof_datum d)
                              (datums_at records pk ehk (clock ww))) by exact Hnn';
          assert (H3 : buf_size ss + sum_sizes (datums_at records pk ehk (clock ww))
                       <= MAX_BATCH_SIZE) by (cbn [with_buf buf_size clock]; lia);
          assert (H4 : Z.of_nat (List.length (record_buf ss)) <= MAX_RECORDS_IN_BATCH)
            by (cbn [with_buf record_buf]; rewrite length_app, Nat2Z.inj_add;
                cbn [List.length]; lia);
          destruct (IH rr nn ss ww Hvalid' H1 H2 H3 H4)
            as (resps & batches & s' & w' & E & Hc & Hf & Hlr & Hd & Hle & Hne & Hst)
      end.
      cbn [with_buf record_buf stream_name calls clock] in *.
      exists resps, batches, s', w'.
      rewrite E, Hc, Hd, <- app_assoc.
      repeat split; auto. intros _. apply Hne. left.
      destruct (record_buf s); discriminate.
Qed.

(** A call in which no datum takes the running size over 5 MiB, the client
    answering: every batch sent holds 500 entries, from a buffer of b
    entries and k records there are (b + k - 1) / 500 of them, and
    (b + k - 1) mod 500 + 1 entries stay in the buffer. *)
Lemma put_records_batches_of_500
    (records : list bytes) (pk ehk : option string) (s : Producer) (w : World) :
  put_records_succeeds env ->
  Forall (fun r => _sizeof_bytes r <= MAX_RECORD_SIZE) records ->
  0 <= buf_size s ->
  Forall (fun d => 0 <= _sizeof_datum d) (datums_at records pk ehk (clock w)) ->
  buf_size s + sum_sizes (datums_at records pk ehk (clock w)) <= MAX_BATCH_SIZE ->
  Z.of_nat (List.length (record_buf s)) <= MAX_RECORDS_IN_BATCH ->
  records <> [] ->
  let total := Z.of_nat (List.length (record_buf s)) + Z.of_nat (List.length records) in
  exists resps batches s' w',
    put_records records pk ehk s w = (Returned (map Some resps), s', w')
    /\ calls w' = calls w ++ map (fun b => CallPutRecords b (stream_name s)) batches
    /\ Forall (fun b => Z.of_nat (List.length b) = MAX_RECORDS_IN_BATCH) batches
    /\ List.length resps = List.length batches
    /\ List.concat batches ++ record_buf s'
       = record_buf s ++ datums_at records pk ehk (clock w)
    /\ Z.of_nat (List.length batches) = (total - 1) / MAX_RECORDS_IN_BATCH
    /\ Z.of_nat (List.length (record_buf s')) = (total - 1) mod MAX_RECORDS_IN_BATCH + 1.
Proof.
  intros Hok Hvalid H0 Hnn Hsum Hlen Hne total.
  destruct (put_records_loop_batches pk ehk records Hok [] 1 s w Hvalid H0 Hnn Hsum Hlen)
    as (resps & batches & s' & w' & E & Hc & Hf & Hlr & Hd & Hle & Hne' & _).
  exists resps, batches, s', w'. repeat split; auto.
  all: pose proof (concat_full_batches batches Hf) as Hcat;
    apply (f_equal (@List.length Datum)) in Hd;
    rewrite !length_app, datums_at_length in Hd;
    apply (f_equal Z.of_nat) in Hd; rewrite !Nat2Z.inj_add in Hd;
    assert (Hpos : 0 < Z.of_nat (List.length (record_buf s')))
      by (destruct (record_buf s'); [exfalso; apply Hne'; auto|cbn [List.length]; lia]);
    subst total; unfold MAX_RECORDS_IN_BATCH in *.
  - apply (Z.div_unique _ _ _ (Z.of_nat (List.length (record_buf s')) - 1)); lia.
  - assert (Hm : Z.of_nat (List.length (record_buf s')) - 1
                 = (Z.of_nat (List.length (record_buf s))
                    + Z.of_nat (List.length records) - 1) mod 500)
      by (apply (Z.mod_unique _ _ (Z.of_nat (List.length batches))); lia).
    lia.
Qed.

(** One record put into an empty buffer. *)
Lemma put_records_one_on_empty (r : bytes) (pk ehk : option string)
    (s : Producer) (w : World) :
  record_buf s = [] ->
  _sizeof_bytes r <= MAX_RECORD_SIZE ->
  let d := datum_at r pk ehk (clock w) in
  put_records [r] pk ehk s w =
    (Returned (if buf_size s + _sizeof_datum d >? MAX_BATCH_SIZE then [None] else []),
     with_buf s [d] (buf_size s + _sizeof_datum d),
     mkWorld (clock_after pk ehk (clock w)) (calls w)).
Proof.
  intros Hb Hr d. unfold put_records. cbn [put_records_loop]. unfold bind at 1.
  rewrite put_records_body_halves. unfold bind at 1.
  rewrite (count_check_below [] s w) by (rewrite Hb; discriminate).
  destruct (Z_gt_le_dec (buf_size s + _sizeof_datum d) MAX_BATCH_SIZE) as [Hd|Hd].
  - rewrite (add_record_overflows r pk ehk _ _ s w Hr Hd).
    rewrite flush_into_empty by exact Hb. rewrite Hb. fold d.
    rewrite (proj2 (Z.gtb_gt _ _) Hd). reflexivity.
  - rewrite (add_record_fits r pk ehk _ _ s w Hr Hd). rewrite Hb. fold d.
    assert (E : (buf_size s + _sizeof_datum d >? MAX_BATCH_SIZE) = false)
      by (rewrite Z.gtb_ltb; apply Z.ltb_ge; lia).
    rewrite E. reflexivity.
Qed.

(** A turn of the loop whose datum does not take the running size over
    5 MiB. *)
Lemma put_records_turn_fits
    (pre : list bytes) (r : bytes) (pk ehk : option string)
    (s : Producer) (w : World) resp1 s1 w1 :
  put_records pre pk ehk s w = (Returned resp1, s1, w1) ->
  _sizeof_bytes r <= MAX_RECORD_SIZE ->
  let d := datum_at r pk ehk (clock w1) in
  let full := Z.of_nat (List.length (record_buf s1)) =? MAX_RECORDS_IN_BATCH in
  (if full then 0 else buf_size s1) + _sizeof_datum d <= MAX_BATCH_SIZE ->
  put_records (pre ++ [r]) pk ehk s w =
    if full
    then match client_put_records (calls w1) (record_buf s1) (stream_name s1) with
         | inr rsp =>
             (Returned (resp1 ++ [Some rsp]),
              with_buf s1 [d] (_sizeof_datum d),
              mkWorld (clock_after pk ehk (clock w1))
                (calls w1 ++ [CallPutRecords (record_buf s1) (stream_name s1)]))
         | inl e =>
             (Raised e, s1, logged w1 (CallPutRecords (record_buf s1) (stream_name s1)))
         end
    else (Returned resp1,
          with_buf s1 (record_buf s1 ++ [d]) (buf_size s1 + _sizeof_datum d),
          mkWorld (clock_after pk ehk (clock w1)) (calls w1)).
Proof.
  intros Hpre Hr d full Hd.
  unfold put_records in *. rewrite put_records_loop_app, Hpre.
  cbn [put_records_loop]. unfold bind at 1. rewrite put_records_body_halves.
  unfold bind at 1. subst full.
  destruct (Z.eqb_spec (Z.of_nat (List.length (record_buf s1))) MAX_RECORDS_IN_BATCH)
    as [Hl|Hl].
  - rewrite (count_check_full resp1 s1 w1 Hl).
    destruct (client_put_records (calls w1) (record_buf s1) (stream_name s1)) as [e|rsp];
      [reflexivity|].
    rewrite (add_record_fits r pk ehk _ _ (with_buf s1 [] 0)
               (logged w1 (CallPutRecords (record_buf s1) (stream_name s1))) Hr)
      by (cbn [with_buf buf_size logged clock]; fold d; lia).
    reflexivity.
  - rewrite (count_check_below resp1 s1 w1 Hl).
    rewrite (add_record_fits r pk ehk _ _ s1 w1 Hr) by (fold d; lia).
    reflexivity.
Qed.

(** C6, as it holds: in a turn of the loop whose datum does not take the
    running size over 5 MiB (the flush of C7), [put_records] flushes when
    and only when the buffer holds exactly 500 entries as the turn starts.
    The 500 entries are then handed to the client before the record is
    added, and the record is alone in the buffer after the turn; with fewer
    entries the record is added and no call is made, also when it is the
    500th entry. *)
Theorem put_records_count_flush
    (pre : list bytes) (r : bytes) (pk ehk : option string)
    (s : Producer) (w : World) resp1 s1 w1 :
  put_records pre pk ehk s w = (Returned resp1, s1, w1) ->
  _sizeof_bytes r <= MAX_RECORD_SIZE ->
  let d := datum_at r pk ehk (clock w1) in
  let full := Z.of_nat (List.length (record_buf s1)) =? MAX_RECORDS_IN_BATCH in
  (if full then 0 else buf_size s1) + _sizeof_datum d <= MAX_BATCH_SIZE ->
  put_records (pre ++ [r]) pk ehk s w =
    if full
    then match client_put_records (calls w1) (record_buf s1) (stream_name s1) with
         | inr rsp =>
             (Returned (resp1 ++ [Some rsp]),
              with_buf s1 [d] (_sizeof_datum d),
              mkWorld (clock_after pk ehk (clock w1))
                (calls w1 ++ [CallPutRecords (record_buf s1) (stream_name s1)]))
         | inl e =>
             (Raised e, s1, logged w1 (CallPutRecords (record_buf s1) (stream_name s1)))
         end
    else (Returned resp1,
          with_buf s1 (record_buf s1 ++ [d]) (buf_size s1 + _sizeof_datum d),
          mkWorld (clock_after pk ehk (clock w1)) (calls w1)).
Proof. exact (put_records_turn_fits pre r pk ehk s w resp1 s1 w1). Qed.

(** ** Further properties *)

(** *** [put_record]: the request, the outcome, the sequence number *)

Ltac put_record_cases pk ehk s :=
  unfold put_record, bind, get_self, kinesis_put_record, or_default,
    _get_default_partition_key, ret, set_self, default_key_at;
  destruct pk as [k|]; cbn [clock calls];
  match goal with
  | |- context [truthy (Some ?x)] => destruct (truthy (Some x)) eqn:Ek
  end;
  cbn [clock calls];
  match goal with
  | |- context [client_put_record ?h ?k] =>
      destruct (client_put_record h k) as [e|resp] eqn:Ec
  end;
  destruct (ordered s) eqn:Eo; destruct (truthy ehk) eqn:Eh.

Lemma truthy_nonempty (k : string) : truthy (Some k) = true <-> k <> "".
Proof.
  unfold truthy. destruct (String.eqb_spec k ""); cbn; split; congruence.
Qed.

(** X1: the request [put_record] makes. It names the producer's stream and
    carries the record; a non-empty [partition_key] is sent as it is and the
    clocks are not read; with [None] or the empty string the default key of
    the current clock reading is sent (when that is not empty) and the
    clocks have been read once; [ExplicitHashKey] is sent, beside the
    partition key, exactly when [explicit_hash_key] is a non-empty
    string. *)
Theorem put_record_request
    (r : bytes) (pk ehk : option string) (s : Producer) (w : World) :
  exists o s' c kw,
    put_record r pk ehk s w = (o, s', mkWorld c (calls w ++ [CallPutRecord kw]))
    /\ kw_StreamName kw = stream_name s
    /\ kw_Data kw = r
    /\ kw_ExplicitHashKey kw = (if truthy ehk then ehk else None)
    /\ (forall k, pk = Some k -> k <> "" -> kw_PartitionKey kw = k /\ c = clock w)
    /\ (pk = None \/ pk = Some "" -> default_key_at (clock w) <> "" ->
        kw_PartitionKey kw = default_key_at (clock w) /\ c = S (clock w)).
Proof.
  put_record_cases pk ehk s; do 4 eexists; (split; [reflexivity|]);
    cbn [kw_StreamName kw_Data kw_ExplicitHashKey kw_PartitionKey];
    (split; [reflexivity|]); (split; [reflexivity|]); (split; [reflexivity|]);
    split;
    try (intros k0 Hk0 Hne; injection Hk0 as <-);
    try (intros [Hp|Hp] Hne; try discriminate Hp; try injection Hp as ->);
    try (split; reflexivity);
    try discriminate;
    try (apply truthy_nonempty in Hne; unfold default_key_at in Hne; congruence);
    try (cbn in Ek; discriminate Ek).
Qed.

(** X2: the outcome of [put_record] is the client's answer to the request:
    its response, returned as it is, with [self.seq] set from it when the
    producer is ordered; or its exception, with the producer exactly as
    before the call, so that a second call carries the same sequence
    number. *)
Theorem put_record_outcome
    (r : bytes) (pk ehk : option string) (s : Producer) (w : World) :
  exists o s' c kw,
    put_record r pk ehk s w = (o, s', mkWorld c (calls w ++ [CallPutRecord kw]))
    /\ match o with
       | Returned resp =>
           client_put_record (calls w) kw = inr resp
           /\ s' = (if ordered s then with_seq s (dict_get "SequenceNumber" resp) else s)
       | Raised e => client_put_record (calls w) kw = inl e /\ s' = s
       end.
Proof.
  put_record_cases pk ehk s; do 4 eexists; (split; [reflexivity|]);
    cbn; rewrite ?Eo; split; solve [exact Ec | reflexivity].
Qed.

(** X3: a response without ['SequenceNumber'] leaves [self.seq] at [None] in
    an ordered producer, and the next request carries that [None] as its
    [SequenceNumberForOrdering], not the number sent before. *)
Theorem put_record_missing_sequence_number
    (r : bytes) (pk ehk : option string) (s : Producer) (w : World)
    (resp : Response) (s' : Producer) (w' : World) :
  ordered s = true ->
  put_record r pk ehk s w = (Returned resp, s', w') ->
  dict_get "SequenceNumber" resp = None ->
  seq s' = None
  /\ forall r2 pk2 ehk2, exists o2 s2 c2 kw2,
       put_record r2 pk2 ehk2 s' w' = (o2, s2, mkWorld c2 (calls w' ++ [CallPutRecord kw2]))
       /\ kw_SequenceNumberForOrdering kw2 = Some None.
Proof.
  intros Ho H Hget.
  destruct (put_record_step r pk ehk s w) as (o & s1 & c & kw & E & _ & _ & _ & Hs1).
  rewrite E in H. injection H as -> <- <-. rewrite Ho, Hget in Hs1.
  assert (Hseq : seq s1 = None) by (subst s1; reflexivity).
  assert (Hord : ordered s1 = true) by (subst s1; exact Ho).
  split; [exact Hseq|]. intros r2 pk2 ehk2.
  destruct (put_record_step r2 pk2 ehk2 s1 (mkWorld c (calls w ++ [CallPutRecord kw])))
    as (o2 & s2 & c2 & kw2 & E2 & Hk2 & _).
  exists o2, s2, c2, kw2. split; [exact E2|]. rewrite Hk2, Hord, Hseq. reflexivity.
Qed.

(** *** [flush] after [flush] *)

(** X4: when [flush] returns, the buffer is empty, the value returned is
    [None] exactly when the buffer was empty before, and a second [flush]
    returns [None] without a call to the client. *)
Theorem flush_twice (s : Producer) (w : World) (r0 : option Response)
    (s' : Producer) (w' : World) :
  flush s w = (Returned r0, s', w') ->
  record_buf s' = []
  /\ (r0 = None <-> record_buf s = [])
  /\ flush s' w' = (Returned None, s', w').
Proof.
  intros H. destruct (record_buf s) as [|d b] eqn:Hb.
  - rewrite (flush_empty s w Hb) in H. injection H as <- <- <-.
    split; [exact Hb|]. split; [tauto|]. apply flush_empty. exact Hb.
  - assert (Hne : record_buf s <> []) by congruence.
    rewrite (flush_sends s w Hne) in H.
    destruct (client_put_records (calls w) (record_buf s) (stream_name s));
      [discriminate H|]. injection H as <- <- <-.
    split; [reflexivity|]. split; [split; discriminate|].
    apply flush_empty. reflexivity.
Qed.

(** *** What the methods on the buffer keep, and what they send *)

Lemma one_key_datum_at (r : bytes) (pk ehk : option string) (c : nat) :
  one_key (datum_at r pk ehk c).
Proof.
  unfold datum_at, one_key.
  destruct ehk as [h|]; cbn [truthy].
  - destruct (negb (h =? "")%string); cbn; [left; split; congruence|].
    destruct (truthy pk) eqn:Ep; cbn; right; split; try congruence.
    destruct pk; [congruence|discriminate Ep].
  - destruct (truthy pk) eqn:Ep; cbn; right; split; try congruence.
    destruct pk; [congruence|discriminate Ep].
Qed.

Lemma well_formed_cleared (s : Producer) : well_formed (with_buf s [] 0).
Proof. split; [apply buffer_invariant_cleared|constructor]. Qed.

Lemma buffer_step_refl (s : Producer) (w w' : World) :
  calls w' = calls w -> buffer_step s w s w'.
Proof.
  intros Hc. do 4 (split; [auto|]). exists []. cbn. rewrite app_nil_r. auto.
Qed.

Lemma buffer_step_trans (s s1 s2 : Producer) (w w1 w2 : World) :
  buffer_step s w s1 w1 -> buffer_step s1 w1 s2 w2 -> buffer_step s w s2 w2.
Proof.
  intros (Hn1 & Ho1 & Hs1 & Hw1 & ts1 & Hc1 & Hf1) (Hn2 & Ho2 & Hs2 & Hw2 & ts2 & Hc2 & Hf2).
  do 4 (split; [first [congruence|auto]|]).
  exists (ts1 ++ ts2). split.
  - rewrite Hc2, Hc1, map_app, <- app_assoc, Hn1. reflexivity.
  - apply Forall_app. split; [assumption|].
    eapply Forall_impl; [|exact Hf2]. cbn. intros t [Ht1 Ht2]. auto.
Qed.

(** A step that makes no call, or the one call that hands over the
    buffer. *)
Lemma buffer_step_intro (s s' : Producer) (w w' : World) :
  stream_name s' = stream_name s -> ordered s' = ordered s -> seq s' = seq s ->
  (well_formed s -> buffer_invariant s') ->
  (well_formed s -> Forall one_key (record_buf s')) ->
  calls w' = calls w
  \/ (record_buf s <> []
      /\ calls w' = calls w ++ [CallPutRecords (record_buf s) (stream_name s)]) ->
  buffer_step s w s' w'.
Proof.
  intros Hn Ho Hs Hinv Hkeys Hc. do 3 (split; [auto|]).
  split; [intros Hwf; split; auto|].
  destruct Hc as [Hc|[Hne Hc]].
  - exists []. cbn. rewrite app_nil_r. auto.
  - exists [s]. split; [exact Hc|]. constructor; [auto|constructor].
Qed.

Lemma buffer_step_flush (s : Producer) (w : World) o s' w' :
  flush s w = (o, s', w') -> buffer_step s w s' w'.
Proof.
  intros H.
  assert (Hinv : well_formed s -> buffer_invariant s')
    by (intros [Hbi _]; eapply flush_invariant; eassumption).
  destruct (record_buf s) as [|d b] eqn:Hb.
  - rewrite (flush_empty s w Hb) in H. injection H as _ <- <-.
    apply buffer_step_intro; auto. intros [_ Hk]. exact Hk.
  - assert (Hne : record_buf s <> []) by congruence.
    rewrite (flush_sends s w Hne) in H.
    destruct (client_put_records (calls w) (record_buf s) (stream_name s));
      injection H as _ <- <-; apply buffer_step_intro; auto;
      first [intros [_ Hk]; exact Hk | intros _; constructor].
Qed.

Lemma buffer_step_flush_into (resp : list (option Response)) (s : Producer) (w : World)
    o s' w' :
  flush_into resp s w = (o, s', w') -> buffer_step s w s' w'.
Proof.
  intros H. unfold flush_into, bind in H.
  destruct (flush s w) as [[[r0|e] s1] w1] eqn:F;
    unfold ret in H; injection H as _ <- <-; eapply buffer_step_flush; exact F.
Qed.

Lemma buffer_step_count_check (resp : list (option Response)) (s : Producer) (w : World)
    o s' w' :
  count_check resp s w = (o, s', w') ->
  buffer_step s w s' w'
  /\ (forall x, o = Returned x ->
      Z.of_nat (List.length (record_buf s')) <> MAX_RECORDS_IN_BATCH).
Proof.
  intros H.
  destruct (Z.eq_dec (Z.of_nat (List.length (record_buf s))) MAX_RECORDS_IN_BATCH) as [Hl|Hl].
  - pose proof H as H'. unfold count_check, bind, get_self in H'.
    rewrite (proj2 (Z.eqb_eq _ _) Hl) in H'.
    split; [eapply buffer_step_flush_into; exact H'|].
    rewrite (count_check_full resp s w Hl) in H.
    destruct (client_put_records (calls w) (record_buf s) (stream_name s));
      injection H as <- <- <-; intros x Hx; [discriminate Hx|cbn; discriminate].
  - rewrite (count_check_below resp s w Hl) in H. injection H as <- <- <-.
    split; [apply buffer_step_refl; reflexivity|]. intros x _. exact Hl.
Qed.

Lemma buffer_step_add_record (r : bytes) (pk ehk : option string)
    (resp : list (option Response)) (n : Z) (s : Producer) (w : World) o s' w' :
  Z.of_nat (List.length (record_buf s)) <> MAX_RECORDS_IN_BATCH ->
  add_record r pk ehk resp n s w = (o, s', w') ->
  buffer_step s w s' w'.
Proof.
  intros Hl H.
  assert (Hinv : well_formed s -> buffer_invariant s').
  { intros [Hbi _]. eapply add_record_invariant; [exact Hbi| |exact H].
    destruct Hbi as (_ & Hle & _). lia. }
  destruct (Z_gt_le_dec (_sizeof_bytes r) MAX_RECORD_SIZE) as [Hr|Hr].
  { rewrite (add_record_oversized r pk ehk resp n s w Hr) in H.
    injection H as _ <- <-. apply buffer_step_refl. reflexivity. }
  set (d := datum_at r pk ehk (clock w)) in *.
  set (w1 := mkWorld (clock_after pk ehk (clock w)) (calls w)).
  assert (Hd1 : one_key d) by apply one_key_datum_at.
  destruct (Z_gt_le_dec (buf_size s + _sizeof_datum d) MAX_BATCH_SIZE) as [Hd|Hd].
  - rewrite (add_record_overflows r pk ehk resp n s w Hr Hd) in H. fold d w1 in H.
    destruct (flush_into_cases resp s w1)
      as [[Hb Hf]|[(Hb & rsp & _ & Hf)|(Hb & e & _ & Hf)]];
      rewrite Hf in H; injection H as _ <- <-; apply buffer_step_intro; auto;
      cbn [with_buf record_buf]; rewrite ?Hb; cbn [app];
      first [intros [_ Hk]; exact Hk | intros _; constructor; [exact Hd1|constructor]].
  - rewrite (add_record_fits r pk ehk resp n s w Hr Hd) in H. fold d w1 in H.
    injection H as _ <- <-. apply buffer_step_intro; auto.
    intros [_ Hk]. cbn [with_buf record_buf]. apply Forall_app. split; [exact Hk|].
    constructor; [exact Hd1|constructor].
Qed.

Lemma buffer_step_body (r : bytes) (pk ehk : option string)
    (resp : list (option Response)) (n : Z) (s : Producer) (w : World) o s' w' :
  put_records_body r pk ehk resp n s w = (o, s', w') ->
  buffer_step s w s' w'.
Proof.
  intros H. rewrite put_records_body_halves in H. unfold bind at 1 in H.
  destruct (count_check resp s w) as [[[resp1|e] s1] w1] eqn:E;
    destruct (buffer_step_count_check resp s w _ _ _ E) as [Hstep Hlen].
  - eapply buffer_step_trans; [exact Hstep|].
    eapply buffer_step_add_record; [apply (Hlen resp1 eq_refl)|exact H].
  - injection H as _ <- <-. exact Hstep.
Qed.

Lemma buffer_step_loop (records : list bytes) (pk ehk : option string) :
  forall resp n s w o s' w',
    put_records_loop records pk ehk resp n s w = (o, s', w') ->
    buffer_step s w s' w'.
Proof.
  induction records as [|r records IH]; intros resp n s w o s' w' H.
  - cbn [put_records_loop] in H. unfold ret in H. injection H as _ <- <-.
    apply buffer_step_refl. reflexivity.
  - cbn [put_records_loop] in H. unfold bind in H.
    destruct (put_records_body r pk ehk resp n s w) as [[[resp1|e] s1] w1] eqn:E;
      apply buffer_step_body in E.
    + eapply buffer_step_trans; [exact E|]. eapply IH. exact H.
    + injection H as _ <- <-. exact E.
Qed.

(** X5: [put_records] and [flush] work on the buffer only. Whatever their
    outcome, they leave [self.seq], the ordering mode and the stream name
    as they were, and every call they make is a [put_records] call that
    hands a non-empty batch to the client for the producer's stream: they
    never send a single record by [put_record], and between two
    [put_record] calls they do not disturb the sequence number. *)
Theorem buffer_methods_keep_sequence_number (s : Producer) (w : World) :
  (forall records pk ehk o s' w',
     put_records records pk ehk s w = (o, s', w') ->
     seq s' = seq s /\ ordered s' = ordered s /\ stream_name s' = stream_name s
     /\ exists batches,
          calls w' = calls w ++ map (fun b => CallPutRecords b (stream_name s)) batches
          /\ Forall (fun b => b <> []) batches)
  /\ (forall o s' w',
        flush s w = (o, s', w') ->
        seq s' = seq s /\ ordered s' = ordered s /\ stream_name s' = stream_name s
        /\ exists batches,
             calls w' = calls w ++ map (fun b => CallPutRecords b (stream_name s)) batches
             /\ Forall (fun b => b <> []) batches).
Proof.
  assert (H : forall s' w', buffer_step s w s' w' ->
            seq s' = seq s /\ ordered s' = ordered s /\ stream_name s' = stream_name s
            /\ exists batches,
                 calls w' = calls w ++ map (fun b => CallPutRecords b (stream_name s)) batches
                 /\ Forall (fun b => b <> []) batches).
  { intros s' w' (Hn & Ho & Hs & _ & ts & Hc & Hf). do 3 (split; [auto|]).
    exists (map record_buf ts). rewrite map_map. split; [exact Hc|].
    apply Forall_map. eapply Forall_impl; [|exact Hf]. cbn. tauto. }
  split.
  - intros records pk ehk o s' w' E. apply H. eapply buffer_step_loop. exact E.
  - intros o s' w' E. apply H. eapply buffer_step_flush. exact E.
Qed.

(** *** Any run of operations on a new producer *)

Lemma request_ok_of_well_formed (t : Producer) (stream : string) :
  well_formed t -> record_buf t <> [] ->
  request_ok stream (CallPutRecords (record_buf t) stream).
Proof.
  intros [(Hsum & Hlen & Hsize) Hkeys] Hne. cbn.
  repeat split; auto. rewrite <- Hsum. exact Hsize.
Qed.

Lemma run_op_requests (op : Op) (s : Producer) (w : World) :
  well_formed s ->
  well_formed (fst (run_op op s w))
  /\ stream_name (fst (run_op op s w)) = stream_name s
  /\ ordered (fst (run_op op s w)) = ordered s
  /\ exists new,
       calls (snd (run_op op s w)) = calls w ++ new
       /\ Forall (request_ok (stream_name s)) new.
Proof.
  intros Hwf.
  assert (H : forall s' w', buffer_step s w s' w' ->
            well_formed s' /\ stream_name s' = stream_name s /\ ordered s' = ordered s
            /\ exists new, calls w' = calls w ++ new
                           /\ Forall (request_ok (stream_name s)) new).
  { intros s' w' (Hn & Ho & _ & Hw & ts & Hc & Hf). do 3 (split; [auto|]).
    eexists. split; [exact Hc|]. apply Forall_map.
    eapply Forall_impl; [|exact Hf]. cbn beta. intros t [Hne Ht].
    apply request_ok_of_well_formed; auto. }
  destruct op as [r pk ehk|rs pk ehk|]; cbn [run_op].
  - destruct (put_record_step r pk ehk s w) as (o & s' & c & kw & E & _ & Hk & _ & Hs).
    rewrite E. cbn [fst snd calls].
    assert (Hs' : well_formed s' /\ stream_name s' = stream_name s
                  /\ ordered s' = ordered s).
    { subst s'. destruct o; [destruct (ordered s) eqn:Eo|]; cbn; auto. }
    destruct Hs' as (H1 & H2 & H3). do 3 (split; [auto|]).
    exists [CallPutRecord kw]. split; [reflexivity|]. constructor; [exact Hk|constructor].
  - destruct (put_records rs pk ehk s w) as [[o s'] w'] eqn:E. cbn [fst snd].
    apply H. eapply buffer_step_loop. exact E.
  - destruct (flush s w) as [[o s'] w'] eqn:E. cbn [fst snd].
    apply H. eapply buffer_step_flush. exact E.
Qed.

Lemma run_ops_requests (ops : list Op) :
  forall s w,
    well_formed s ->
    well_formed (fst (run_ops ops s w))
    /\ stream_name (fst (run_ops ops s w)) = stream_name s
    /\ ordered (fst (run_ops ops s w)) = ordered s
    /\ exists new,
         calls (snd (run_ops ops s w)) = calls w ++ new
         /\ Forall (request_ok (stream_name s)) new.
Proof.
  induction ops as [|op ops IH]; intros s w Hwf.
  - cbn. do 3 (split; [auto|]). exists []. rewrite app_nil_r. auto.
  - cbn [run_ops].
    destruct (run_op_requests op s w Hwf) as (H1 & H2 & H3 & new1 & H4 & H5).
    destruct (run_op op s w) as [s1 w1]. cbn [fst snd] in *.
    destruct (IH s1 w1 H1) as (K1 & K2 & K3 & new2 & K4 & K5).
    do 3 (split; [first [congruence|auto]|]).
    exists (new1 ++ new2). split; [rewrite K4, H4, app_assoc; reflexivity|].
    apply Forall_app. split; [assumption|]. rewrite <- H2. assumption.
Qed.

Lemma well_formed_init (stream : string) (o : bool) : well_formed (init stream o).
Proof.
  split; [|constructor].
  unfold init, buffer_invariant, MAX_RECORDS_IN_BATCH, MAX_BATCH_SIZE, MAX_RECORD_SIZE.
  cbn. repeat split; lia.
Qed.

(** X6: whatever operations run on a new producer, and whether they return
    or raise, every request the client receives is for the producer's
    stream, and every batch handed over by [put_records] holds between 1 and
    500 records, each with exactly one of the two keys, of at most 5 MiB in
    all (unless the batch is a single record). *)
Theorem requests_within_service_limits
    (stream : string) (o : bool) (ops : list Op) (c : nat) :
  Forall (request_ok stream) (calls (snd (run_ops ops (init stream o) (mkWorld c [])))).
Proof.
  destruct (run_ops_requests ops (init stream o) (mkWorld c []) (well_formed_init stream o))
    as (_ & _ & _ & new & Hc & Hf).
  rewrite Hc. exact Hf.
Qed.

(** X7: whatever operations run on a new producer, the producer keeps the
    stream name and the ordering mode it was made with, and every datum in
    its buffer holds exactly one of the two keys. *)
Theorem producer_identity_is_kept
    (stream : string) (o : bool) (ops : list Op) (w : World) :
  stream_name (fst (run_ops ops (init stream o) w)) = stream
  /\ ordered (fst (run_ops ops (init stream o) w)) = o
  /\ Forall one_key (record_buf (fst (run_ops ops (init stream o) w))).
Proof.
  destruct (run_ops_requests ops (init stream o) w (well_formed_init stream o))
    as ([_ Hk] & Hn & Ho & _).
  auto.
Qed.

(** *** One call or several *)

Lemma shifted_flush_into (resp resp0 x : list (option Response)) (s : Producer) (w : World) :
  shifted resp resp0 (flush_into (resp ++ x) s w) (flush_into (resp0 ++ x) s w).
Proof.
  unfold flush_into, bind. destruct (flush s w) as [[[r0|e] s1] w1]; cbn; auto.
  repeat split. exists (x ++ [r0]). rewrite !app_assoc. auto.
Qed.

Lemma shifted_add_record (r : bytes) (pk ehk : option string)
    (resp resp0 x : list (option Response)) (n n0 : Z) (s : Producer) (w : World) :
  shifted resp resp0 (add_record r pk ehk (resp ++ x) n s w)
                     (add_record r pk ehk (resp0 ++ x) n0 s w).
Proof.
  destruct (Z_gt_le_dec (_sizeof_bytes r) MAX_RECORD_SIZE) as [Hr|Hr].
  { rewrite !add_record_oversized by exact Hr. cbn. auto. }
  destruct (Z_gt_le_dec (buf_size s + _sizeof_datum (datum_at r pk ehk (clock w)))
                        MAX_BATCH_SIZE) as [Hd|Hd].
  - rewrite !(add_record_overflows r pk ehk _ _ s w Hr Hd).
    pose proof (shifted_flush_into resp resp0 x s
                  (mkWorld (clock_after pk ehk (clock w)) (calls w))) as H.
    destruct (flush_into (resp ++ x) s _) as [[[a|e] s1] w1];
      destruct (flush_into (resp0 ++ x) s _) as [[[b|e0] s2] w2]; cbn in H |- *;
      try contradiction.
    + destruct H as (-> & -> & t & -> & ->). repeat split. exists t. auto.
    + exact H.
  - rewrite !(add_record_fits r pk ehk _ _ s w Hr Hd). cbn. repeat split.
    exists x. auto.
Qed.

Lemma shifted_body (r : bytes) (pk ehk : option string)
    (resp resp0 : list (option Response)) (n n0 : Z) (s : Producer) (w : World) :
  shifted resp resp0 (put_records_body r pk ehk resp n s w)
                     (put_records_body r pk ehk resp0 n0 s w).
Proof.
  rewrite !put_records_body_halves. unfold bind.
  destruct (Z.eq_dec (Z.of_nat (List.length (record_buf s))) MAX_RECORDS_IN_BATCH) as [Hl|Hl].
  - rewrite !(count_check_full _ s w Hl).
    destruct (client_put_records (calls w) (record_buf s) (stream_name s)); [cbn; auto|].
    apply (shifted_add_record r pk ehk resp resp0 [Some r0]).
  - rewrite !(count_check_below _ s w Hl).
    pose proof (shifted_add_record r pk ehk resp resp0 [] n n0 s w) as H.
    rewrite !app_nil_r in H. exact H.
Qed.

Lemma shifted_loop (records : list bytes) (pk ehk : option string) :
  forall resp resp0 n n0 s w,
    shifted resp resp0 (put_records_loop records pk ehk resp n s w)
                       (put_records_loop records pk ehk resp0 n0 s w).
Proof.
  induction records as [|r records IH]; intros resp resp0 n n0 s w.
  - cbn. repeat split. exists []. rewrite !app_nil_r. auto.
  - cbn [put_records_loop]. unfold bind.
    pose proof (shifted_body r pk ehk resp resp0 n n0 s w) as H.
    destruct (put_records_body r pk ehk resp n s w) as [[[a|e] s1] w1];
      destruct (put_records_body r pk ehk resp0 n0 s w) as [[[b|e0] s2] w2];
      cbn in H; try contradiction; [|exact H].
    destruct H as (-> & -> & t & -> & ->).
    pose proof (IH (resp ++ t) (resp0 ++ t) (n + 1) (n0 + 1) s2 w2) as K.
    destruct (put_records_loop records pk ehk (resp ++ t) (n + 1) s2 w2)
      as [[[a'|e'] s3] w3];
      destruct (put_records_loop records pk ehk (resp0 ++ t) (n0 + 1) s2 w2)
        as [[[b'|e0'] s4] w4];
      cbn in K |- *; try contradiction; [|exact K].
    destruct K as (-> & -> & t' & -> & ->). repeat split.
    exists (t ++ t'). rewrite !app_assoc. auto.
Qed.

(** X8: one [put_records] call on the records [a ++ b] does what a call on
    [a] followed by a call on [b] does, when the call on [a] returns: the
    same producer and the same world result, and when the call on [b]
    returns, the result list is that of the first call followed by that of
    the second; when it raises, the single call raises too. *)
Theorem put_records_app
    (a b : list bytes) (pk ehk : option string) (s : Producer) (w : World)
    ra s1 w1 ob s2 w2 :
  put_records a pk ehk s w = (Returned ra, s1, w1) ->
  put_records b pk ehk s1 w1 = (ob, s2, w2) ->
  exists o,
    put_records (a ++ b) pk ehk s w = (o, s2, w2)
    /\ match ob with
       | Returned rb => o = Returned (ra ++ rb)
       | Raised _ => exists e, o = Raised e
       end.
Proof.
  intros Ha Hb. unfold put_records in *. rewrite put_records_loop_app, Ha.
  pose proof (shifted_loop b pk ehk ra [] (1 + Z.of_nat (List.length a)) 1 s1 w1) as H.
  rewrite Hb in H.
  destruct (put_records_loop b pk ehk ra (1 + Z.of_nat (List.length a)) s1 w1)
    as [[[x|e] s3] w3]; destruct ob as [rb|e0]; cbn in H; try contradiction.
  - destruct H as (-> & -> & t & -> & ->). eexists. split; reflexivity.
  - destruct H as (-> & ->). eexists. split; [reflexivity|]. eexists. reflexivity.
Qed.

(** *** A call that returns: where the records are, and the result list *)

Lemma answered_app (a b : list (option Response)) :
  answered (a ++ b) = answered a ++ answered b.
Proof. unfold answered. apply flat_map_app. Qed.

Lemma add_record_returns (r : bytes) (pk ehk : option string)
    (resp : list (option Response)) (n : Z) (s : Producer) (w : World) resp' s' w' :
  add_record r pk ehk resp n s w = (Returned resp', s', w') ->
  _sizeof_bytes r <= MAX_RECORD_SIZE
  /\ clock w' = clock_after pk ehk (clock w)
  /\ stream_name s' = stream_name s
  /\ exists t bs,
       resp' = resp ++ t
       /\ calls w' = calls w ++ map (fun b => CallPutRecords b (stream_name s)) bs
       /\ List.length (answered t) = List.length bs
       /\ List.concat bs ++ record_buf s' = record_buf s ++ [datum_at r pk ehk (clock w)].
Proof.
  intros H.
  destruct (Z_gt_le_dec (_sizeof_bytes r) MAX_RECORD_SIZE) as [Hr|Hr].
  { rewrite (add_record_oversized r pk ehk resp n s w Hr) in H. discriminate H. }
  split; [exact Hr|].
  set (d := datum_at r pk ehk (clock w)) in *.
  set (w1 := mkWorld (clock_after pk ehk (clock w)) (calls w)).
  destruct (Z_gt_le_dec (buf_size s + _sizeof_datum d) MAX_BATCH_SIZE) as [Hd|Hd].
  - rewrite (add_record_overflows r pk ehk resp n s w Hr Hd) in H. fold d w1 in H.
    destruct (flush_into_cases resp s w1)
      as [[Hb Hf]|[(Hb & rsp & _ & Hf)|(Hb & e & _ & Hf)]];
      rewrite Hf in H; [| |discriminate H]; injection H as <- <- <-.
    + do 2 (split; [reflexivity|]). exists [None], []. cbn. rewrite Hb, app_nil_r. auto.
    + do 2 (split; [reflexivity|]). exists [Some rsp], [record_buf s]. cbn.
      rewrite !app_nil_r. auto.
  - rewrite (add_record_fits r pk ehk resp n s w Hr Hd) in H. fold d w1 in H.
    injection H as <- <- <-. do 2 (split; [reflexivity|]). exists [], []. cbn.
    rewrite !app_nil_r. auto.
Qed.

Lemma put_records_body_returns (r : bytes) (pk ehk : option string)
    (resp : list (option Response)) (n : Z) (s : Producer) (w : World) resp' s' w' :
  put_records_body r pk ehk resp n s w = (Returned resp', s', w') ->
  _sizeof_bytes r <= MAX_RECORD_SIZE
  /\ clock w' = clock_after pk ehk (clock w)
  /\ stream_name s' = stream_name s
  /\ exists t bs,
       resp' = resp ++ t
       /\ calls w' = calls w ++ map (fun b => CallPutRecords b (stream_name s)) bs
       /\ List.length (answered t) = List.length bs
       /\ List.concat bs ++ record_buf s' = record_buf s ++ [datum_at r pk ehk (clock w)].
Proof.
  intros H. rewrite put_records_body_halves in H. unfold bind in H.
  destruct (Z.eq_dec (Z.of_nat (List.length (record_buf s))) MAX_RECORDS_IN_BATCH) as [Hl|Hl].
  - rewrite (count_check_full resp s w Hl) in H.
    destruct (client_put_records (calls w) (record_buf s) (stream_name s)) as [e|rsp];
      [discriminate H|].
    apply add_record_returns in H.
    destruct H as (Hr & Hc & Hn & t & bs & -> & Hcalls & Hlen & Hcat).
    cbn [with_buf record_buf stream_name logged clock calls app] in *.
    do 3 (split; [assumption|]).
    exists (Some rsp :: t), (record_buf s :: bs). rewrite <- app_assoc. cbn [app].
    split; [reflexivity|]. split; [rewrite Hcalls, <- app_assoc; reflexivity|].
    split; [change (answered (Some rsp :: t)) with (rsp :: answered t);
            cbn [List.length]; rewrite Hlen; reflexivity|].
    cbn [List.concat]. rewrite <- app_assoc, Hcat. reflexivity.
  - rewrite (count_check_below resp s w Hl) in H. apply add_record_returns in H. exact H.
Qed.

Lemma put_records_loop_returns (records : list bytes) (pk ehk : option string) :
  forall resp n s w resp' s' w',
    put_records_loop records pk ehk resp n s w = (Returned resp', s', w') ->
    Forall (fun r => _sizeof_bytes r <= MAX_RECORD_SIZE) records
    /\ clock w' = (if reads_clock pk ehk then clock w + List.length records else clock w)%nat
    /\ stream_name s' = stream_name s
    /\ exists t bs,
         resp' = resp ++ t
         /\ calls w' = calls w ++ map (fun b => CallPutRecords b (stream_name s)) bs
         /\ List.length (answered t) = List.length bs
         /\ List.concat bs ++ record_buf s'
            = record_buf s ++ datums_at records pk ehk (clock w).
Proof.
  induction records as [|r records IH]; intros resp n s w resp' s' w' H.
  - cbn [put_records_loop] in H. unfold ret in H. injection H as <- <- <-.
    split; [constructor|]. split; [destruct (reads_clock pk ehk); cbn; lia|].
    split; [reflexivity|]. exists [], []. cbn. rewrite !app_nil_r. auto.
  - cbn [put_records_loop] in H. unfold bind in H.
    destruct (put_records_body r pk ehk resp n s w) as [[[resp1|e] s1] w1] eqn:E;
      [|discriminate H].
    apply put_records_body_returns in E.
    destruct E as (Hr & Hc & Hn & t & bs & -> & Hcalls & Hlen & Hcat).
    apply IH in H.
    destruct H as (Hv & Hc' & Hn' & t' & bs' & -> & Hcalls' & Hlen' & Hcat').
    split; [constructor; assumption|].
    split.
    { rewrite Hc', Hc. unfold clock_after. destruct (reads_clock pk ehk); cbn; lia. }
    split; [congruence|].
    exists (t ++ t'), (bs ++ bs'). rewrite app_assoc. split; [reflexivity|].
    split; [rewrite Hcalls', Hcalls, Hn, map_app, app_assoc; reflexivity|].
    split; [rewrite answered_app, !length_app; lia|].
    rewrite concat_app, <- app_assoc, Hcat', Hc, app_assoc, Hcat, <- app_assoc.
    reflexivity.
Qed.

Lemma datums_at_keyed (records : list bytes) (pk ehk : option string) :
  forall c, datums_at records pk ehk c = keyed_datums records pk ehk c.
Proof.
  unfold keyed_datums.
  induction records as [|r records IH]; intros c.
  - destruct (truthy ehk); [|destruct (truthy pk)]; reflexivity.
  - cbn [datums_at]. rewrite IH. unfold datum_at, clock_after, reads_clock, default_key_at.
    destruct (truthy ehk); [reflexivity|]. destruct (truthy pk); reflexivity.
Qed.

(** X9: when [put_records] returns, every record was at most 1 MiB, and the
    batches handed to the client followed by the buffer are what the buffer
    held before followed by one datum for each record, in the order of the
    records: all under the explicit hash key if one was given, else all
    under the partition key if one was given, else each under the default
    key of a clock reading of its own, one reading for each record. *)
Theorem put_records_returns_keyed_datums
    (records : list bytes) (pk ehk : option string) (s : Producer) (w : World)
    resp s' w' :
  put_records records pk ehk s w = (Returned resp, s', w') ->
  Forall (fun r => _sizeof_bytes r <= MAX_RECORD_SIZE) records
  /\ clock w' = (if reads_clock pk ehk then clock w + List.length records else clock w)%nat
  /\ exists batches,
       calls w' = calls w ++ map (fun b => CallPutRecords b (stream_name s)) batches
       /\ List.concat batches ++ record_buf s'
          = record_buf s ++ keyed_datums records pk ehk (clock w).
Proof.
  intros H. apply put_records_loop_returns in H.
  destruct H as (Hv & Hc & _ & t & bs & _ & Hcalls & _ & Hcat).
  do 2 (split; [assumption|]). exists bs. rewrite <- datums_at_keyed. auto.
Qed.

(** X10: the result list of a [put_records] call that returns holds one
    response of the client for each batch the call handed over, and beside
    them only [None] entries (of flushes that found the buffer empty): an
    empty result list means that no call was made. *)
Theorem put_records_result_list
    (records : list bytes) (pk ehk : option string) (s : Producer) (w : World)
    resp s' w' :
  put_records records pk ehk s w = (Returned resp, s', w') ->
  exists batches,
    calls w' = calls w ++ map (fun b => CallPutRecords b (stream_name s)) batches
    /\ List.length (answered resp) = List.length batches
    /\ (resp = [] -> calls w' = calls w).
Proof.
  intros H. apply put_records_loop_returns in H.
  destruct H as (_ & _ & _ & t & bs & Hr & Hcalls & Hlen & _).
  cbn [app] in Hr. subst t. exists bs. do 2 (split; [assumption|]).
  intros ->. cbn in Hlen. destruct bs; [|discriminate Hlen].
  rewrite Hcalls. cbn. apply app_nil_r.
Qed.

(** X11: a record of at most 1 MiB whose datum is larger than 5 MiB by
    itself, put into an empty buffer: [put_records] returns the list that
    holds [None] (the flush found nothing to send), makes no call to the
    client, and the datum is in the buffer. *)
Theorem put_records_none_response
    (r : bytes) (pk ehk : option string) (s : Producer) (w : World) :
  record_buf s = [] ->
  buf_size s = 0 ->
  _sizeof_bytes r <= MAX_RECORD_SIZE ->
  let d := datum_at r pk ehk (clock w) in
  _sizeof_datum d > MAX_BATCH_SIZE ->
  put_records [r] pk ehk s w
  = (Returned [None], with_buf s [d] (_sizeof_datum d),
     mkWorld (clock_after pk ehk (clock w)) (calls w)).
Proof.
  intros Hb H0 Hr d Hd.
  rewrite (put_records_one_on_empty r pk ehk s w Hb Hr). fold d. rewrite H0.
  cbn [Z.add]. rewrite (proj2 (Z.gtb_gt _ _) Hd). reflexivity.
Qed.

(** X12: a flush that the client refuses in the middle of a [put_records]
    call, in the turn of a record that finds 500 entries in the buffer or
    whose datum would take the running size over 5 MiB: the call raises the
    client's exception, and the producer is as the records before that one
    left it. Neither that record nor a later one is in the buffer, and the
    entries the client refused are still there. *)
Theorem put_records_refused_flush
    (pre post : list bytes) (r : bytes) (pk ehk : option string)
    (s : Producer) (w : World) resp1 s1 w1 e :
  put_records pre pk ehk s w = (Returned resp1, s1, w1) ->
  record_buf s1 <> [] ->
  client_put_records (calls w1) (record_buf s1) (stream_name s1) = inl e ->
  Z.of_nat (List.length (record_buf s1)) = MAX_RECORDS_IN_BATCH
  \/ (_sizeof_bytes r <= MAX_RECORD_SIZE
      /\ buf_size s1 + _sizeof_datum (datum_at r pk ehk (clock w1)) > MAX_BATCH_SIZE) ->
  exists c,
    put_records (pre ++ r :: post) pk ehk s w
    = (Raised e, s1,
       mkWorld c (calls w1 ++ [CallPutRecords (record_buf s1) (stream_name s1)])).
Proof.
  intros Hpre Hne Hcl Htrig.
  unfold put_records in *. rewrite put_records_loop_app, Hpre.
  cbn [put_records_loop]. unfold bind at 1. rewrite put_records_body_halves.
  unfold bind at 1.
  destruct (Z.eq_dec (Z.of_nat (List.length (record_buf s1))) MAX_RECORDS_IN_BATCH) as [Hl|Hl].
  - rewrite (count_check_full resp1 s1 w1 Hl), Hcl. eexists. reflexivity.
  - destruct Htrig as [Hfull|[Hr Hd]]; [contradiction|].
    rewrite (count_check_below resp1 s1 w1 Hl).
    rewrite (add_record_overflows r pk ehk _ _ s1 w1 Hr Hd).
    rewrite (flush_into_sends resp1 s1 _ Hne). cbn [calls]. rewrite Hcl.
    eexists. reflexivity.
Qed.

End Properties.

(** ** Scenarios *)

(** Unless it is said otherwise, a scenario runs with the client that
    accepts every call. *)
#[local] Existing Instance accepting_env.

Lemma accepting_env_answers : put_records_succeeds accepting_env.
Proof. intros h Records StreamName. eexists. reflexivity. Qed.

Lemma accepting_sizeof_bytes (r : bytes) :
  @_sizeof_bytes accepting_env r = spec_sizeof_bytes r.
Proof. reflexivity. Qed.

Lemma accepting_sizeof_datum (d : Datum) :
  @_sizeof_datum accepting_env d = spec_sizeof_datum d.
Proof. reflexivity. Qed.

Lemma refusing_once_sizeof_bytes (r : bytes) :
  @_sizeof_bytes refusing_once_env r = spec_sizeof_bytes r.
Proof. reflexivity. Qed.

Lemma string_repeat_length (n : nat) (c : ascii) : String.length (string_repeat n c) = n.
Proof. induction n as [|n IH]; cbn; [reflexivity|]. rewrite IH. reflexivity. Qed.

Lemma spec_sizeof_bytes_payload (n : Z) : 0 <= n -> spec_sizeof_bytes (payload n) = n.
Proof.
  intros Hn. unfold spec_sizeof_bytes, payload. rewrite repeat_length. lia.
Qed.

Lemma key_length_long_key (n : Z) : 0 <= n -> key_length (Some (long_key n)) = n.
Proof.
  intros Hn. unfold key_length, long_key. rewrite string_repeat_length. lia.
Qed.

Lemma truthy_long_key (n : Z) : 0 < n -> truthy (Some (long_key n)) = true.
Proof.
  intros Hn. unfold truthy, long_key.
  destruct (Z.to_nat n) as [|m] eqn:E; [lia|reflexivity].
Qed.

Lemma spec_sizeof_datum_keyed (k n : Z) :
  0 <= k -> 0 <= n ->
  spec_sizeof_datum (mkDatum None (Some (long_key k)) (payload n)) = n + k.
Proof.
  intros Hk Hn. unfold spec_sizeof_datum. cbn [Data ExplicitHashKey PartitionKey].
  rewrite (key_length_long_key k Hk).
  change (Z.of_nat (List.length (payload n))) with (spec_sizeof_bytes (payload n)).
  rewrite (spec_sizeof_bytes_payload n Hn). cbn [key_length]. lia.
Qed.

(** C9 at a new producer. *)
Lemma flush_empty_is_noop_witness :
  flush (init "orders" true) w0 = (Returned None, init "orders" true, w0).
Proof.
  apply (proj1 (flush_empty_is_noop (init "orders" true) w0)).
  reflexivity.
Defined.

(** C3 at a buffer of one record and a client that refuses the first call
    and accepts the second: the first [flush] raises and changes nothing in
    the producer, the second sends the same record. *)
Lemma flush_failure_keeps_buffer_witness :
  let s := mkProducer "orders" true (Some "0") [small_datum] 2 in
  flush (env := refusing_once_env) s w0
  = (Raised (ClientError "ProvisionedThroughputExceededException"), s,
     logged w0 (CallPutRecords [small_datum] "orders"))
  /\ exists o s2,
       flush (env := refusing_once_env) s (logged w0 (CallPutRecords [small_datum] "orders"))
       = (o, s2,
          logged (logged w0 (CallPutRecords [small_datum] "orders"))
                 (CallPutRecords [small_datum] "orders")).
Proof.
  intros s.
  apply (flush_failure_keeps_buffer (env := refusing_once_env) s w0).
  discriminate.
Defined.

(** C8 at three calls of an ordered producer: the requests carry ['0'] and
    then the sequence numbers of the first and of the second response. *)
Lemma put_record_sequence_tokens_witness :
  exists kws,
    calls (snd (put_record_series
                  [(payload 1, None, None); (payload 2, Some "k", None);
                   (payload 3, None, Some "7")]
                  (init "orders" true) w0))
    = map CallPutRecord kws
    /\ map kw_SequenceNumberForOrdering kws
       = [Some (Some "0"); Some (Some "7"); Some (Some "77")].
Proof.
  set (args := [(payload 1, None, None); (payload 2, Some "k", None);
                (payload 3, None, Some "7")]).
  assert (E : exists resps s' w',
             put_record_series args (init "orders" true) w0 = (Returned resps, s', w')
             /\ map (dict_get "SequenceNumber") resps = [Some "7"; Some "77"; Some "777"]).
  { do 3 eexists. split; vm_compute; reflexivity. }
  destruct E as (resps & s' & w' & E & Hresps).
  destruct (put_record_sequence_tokens "orders" true [] 0 args w0 _ _ _ E)
    as (kws & Hc & _ & Hord).
  exists kws. rewrite E. split; [exact Hc|].
  destruct (Hord eq_refl resps eq_refl) as [_ Hm]. rewrite Hm, Hresps. reflexivity.
Defined.

Lemma datum_at_partition_key {env : Environment} (r : bytes) (k : Z) (c : nat) :
  0 < k ->
  datum_at r (Some (long_key k)) None c = mkDatum None (Some (long_key k)) r.
Proof.
  intros Hk. unfold datum_at. cbn [truthy].
  change (negb (long_key k =? "")%string) with (truthy (Some (long_key k))).
  rewrite (truthy_long_key k Hk). reflexivity.
Qed.

Lemma clock_after_partition_key (k : Z) (c : nat) :
  0 < k -> clock_after (Some (long_key k)) None c = c.
Proof.
  intros Hk. unfold clock_after, reads_clock.
  rewrite (truthy_long_key k Hk). reflexivity.
Qed.

(** C1 at two calls, of two records and of one, on a new producer. *)
Lemma put_records_then_flush_sends_all_witness :
  exists resps r0 s' w',
    (resps <- put_records_series (env := accepting_env)
                [([payload 1; payload 2], None, None); ([payload 3], Some "k", None)] ;;
     r0 <- flush ;; ret (resps, r0)) (init "orders" true) w0
    = (Returned (resps, r0), s', w')
    /\ map Data (sent (calls w')) = [payload 1; payload 2; payload 3]
    /\ record_buf s' = [].
Proof.
  destruct (put_records_then_flush_sends_all (env := accepting_env)
              (init "orders" true) w0
              [([payload 1; payload 2], None, None); ([payload 3], Some "k", None)]
              accepting_env_answers)
    as (resps & r0 & s' & w' & new & E & Hc & Hd & _ & Hb).
  - repeat constructor; vm_compute; discriminate.
  - exists resps, r0, s', w'. split; [exact E|]. split; [|exact Hb].
    rewrite Hc. exact Hd.
Defined.

(** C5 at a single record of 1 MiB + 1 byte put into a buffer of 500
    entries: the 500 entries are sent and the [ValueError] is raised with
    the buffer empty. *)
Lemma count_flush_precedes_size_check_witness :
  put_records (env := accepting_env) [payload 1048577] None None full_producer w0
  = (Raised (ValueError 1 MAX_RECORD_SIZE 1048577 (payload 1048577)),
     with_buf full_producer [] 0,
     logged w0 (CallPutRecords (record_buf full_producer) "orders")).
Proof.
  assert (Hr : @_sizeof_bytes accepting_env (payload 1048577) > MAX_RECORD_SIZE).
  { rewrite accepting_sizeof_bytes, spec_sizeof_bytes_payload by lia. reflexivity. }
  pose proof (count_flush_precedes_size_check (env := accepting_env)
                [] [] (payload 1048577) None None full_producer w0 [] full_producer w0
                eq_refl eq_refl Hr) as H.
  rewrite accepting_sizeof_bytes, spec_sizeof_bytes_payload in H by lia. exact H.
Defined.

Lemma oversized_payload : @_sizeof_bytes accepting_env (payload 1048577) > MAX_RECORD_SIZE.
Proof.
  rewrite accepting_sizeof_bytes, spec_sizeof_bytes_payload by lia. reflexivity.
Qed.

Lemma oversized_payload_refused :
  @_sizeof_bytes refusing_once_env (payload 1048577) > MAX_RECORD_SIZE.
Proof.
  rewrite refusing_once_sizeof_bytes, spec_sizeof_bytes_payload by lia. reflexivity.
Qed.

(** C4 at a record of 1 MiB + 1 byte in second place, on a new producer:
    the [ValueError] names record 2, and producer and world are as the call
    on the first record alone leaves them, with that record alone in the
    buffer. *)
Lemma put_records_oversized_record_witness :
  exists resp1 s1 w1,
    put_records [payload 1] None None (init "orders" true) w0 = (Returned resp1, s1, w1)
    /\ put_records ([payload 1] ++ payload 1048577 :: [payload 2]) None None
         (init "orders" true) w0
       = (Raised (ValueError 2 MAX_RECORD_SIZE 1048577 (payload 1048577)), s1, w1)
    /\ map Data (record_buf s1) = [payload 1].
Proof.
  destruct (put_records_oversized_record [payload 1] [payload 2] (payload 1048577)
              None None (init "orders" true) w0 accepting_env_answers)
    as (resp1 & s1 & w1 & E1 & E2 & _).
  - repeat constructor. vm_compute. discriminate.
  - exact oversized_payload.
  - exists resp1, s1, w1. split; [exact E1|].
    assert (Hs1 : map Data (record_buf s1) = [payload 1]).
    { vm_compute in E1. injection E1 as _ <- _. reflexivity. }
    assert (Hl : (Z.of_nat (List.length (record_buf s1)) =? MAX_RECORDS_IN_BATCH) = false).
    { apply (f_equal (@List.length bytes)) in Hs1. rewrite length_map in Hs1.
      rewrite Hs1. reflexivity. }
    rewrite Hl in E2.
    rewrite accepting_sizeof_bytes, spec_sizeof_bytes_payload in E2 by lia.
    split; [exact E2|exact Hs1].
Defined.

(** C4 as the claim words it fails when the buffer holds 500 entries, as
    500 one-byte records put into a new producer leave it: a call with the
    single record of 1 MiB + 1 byte raises the [ValueError], and the buffer
    is not the one before the call, its 500 entries having been sent. And
    when the client refuses that flush, the call raises the client's
    exception, not the [ValueError]. *)
Lemma oversized_record_on_full_buffer :
  run_ops [OpPutRecords (repeat ["001"%byte] 500) (Some "k") None] (init "orders" true) w0
  = (full_producer, w0)
  /\ put_records [payload 1048577] None None full_producer w0
     = (Raised (ValueError 1 MAX_RECORD_SIZE 1048577 (payload 1048577)),
        with_buf full_producer [] 0,
        logged w0 (CallPutRecords (record_buf full_producer) "orders"))
  /\ record_buf (with_buf full_producer [] 0) <> record_buf full_producer
  /\ put_records (env := refusing_once_env) [payload 1048577] None None full_producer w0
     = (Raised (ClientError "ProvisionedThroughputExceededException"),
        full_producer,
        logged w0 (CallPutRecords (record_buf full_producer) "orders")).
Proof.
  split; [vm_compute; reflexivity|]. split; [|split; [discriminate|]].
  - unfold put_records. cbn [put_records_loop]. unfold bind.
    rewrite (put_records_body_oversized (env := accepting_env) (payload 1048577)
               None None [] 1 full_producer w0 oversized_payload).
    rewrite accepting_sizeof_bytes, spec_sizeof_bytes_payload by lia. reflexivity.
  - unfold put_records. cbn [put_records_loop]. unfold bind.
    rewrite (put_records_body_oversized (env := refusing_once_env) (payload 1048577)
               None None [] 1 full_producer w0 oversized_payload_refused).
    reflexivity.
Qed.

Lemma heavy_producer_sum : buf_size heavy_producer = sum_sizes (record_buf heavy_producer).
Proof.
  unfold sum_sizes. cbn [heavy_producer record_buf buf_size fold_right].
  rewrite accepting_sizeof_datum.
  unfold heavy_datum. rewrite spec_sizeof_datum_keyed by lia. reflexivity.
Qed.

Lemma light_payload : @_sizeof_bytes accepting_env (payload 204800) <= MAX_RECORD_SIZE.
Proof.
  rewrite accepting_sizeof_bytes, spec_sizeof_bytes_payload by lia.
  unfold MAX_RECORD_SIZE. lia.
Qed.

Lemma light_datum_size (c : nat) :
  _sizeof_datum (datum_at (payload 204800) (Some (long_key 664098)) None c) = 868898.
Proof.
  rewrite datum_at_partition_key by lia.
  rewrite accepting_sizeof_datum, spec_sizeof_datum_keyed by lia. reflexivity.
Qed.

(** C7 at the buffer of three records of 4.9 MiB in all and a record of
    200 KiB: the three records are sent in one batch, the response is the
    result list, and the new record is alone in the buffer, whose running
    size is that of its datum. *)
Lemma size_flush_before_add_witness :
  put_records [payload 204800] (Some (long_key 664098)) None heavy_producer w0
  = (Returned [Some [("FailedRecordCount", "0")]],
     with_buf heavy_producer [mkDatum None (Some (long_key 664098)) (payload 204800)] 868898,
     mkWorld 0 [CallPutRecords [heavy_datum; heavy_datum; heavy_datum] "orders"]).
Proof.
  pose proof (size_flush_before_add [] (payload 204800) (Some (long_key 664098)) None
                heavy_producer w0 [] heavy_producer w0 [("FailedRecordCount", "0")]
                eq_refl light_payload heavy_producer_sum) as H.
  cbv zeta in H. rewrite light_datum_size in H.
  rewrite datum_at_partition_key, clock_after_partition_key in H by lia.
  apply H.
  - reflexivity.
  - intros _. reflexivity.
Defined.

(** A turn of the loop at a record of [n] bytes under a key of [k]
    characters that fits into the buffer. *)
Lemma keyed_turn_fits (pre : list bytes) (n k : Z) (s : Producer) (w : World)
    resp1 s1 w1 :
  put_records pre (Some (long_key k)) None s w = (Returned resp1, s1, w1) ->
  0 < k -> 0 <= n <= MAX_RECORD_SIZE ->
  Z.of_nat (List.length (record_buf s1)) <> MAX_RECORDS_IN_BATCH ->
  buf_size s1 + (n + k) <= MAX_BATCH_SIZE ->
  put_records (pre ++ [payload n]) (Some (long_key k)) None s w
  = (Returned resp1,
     with_buf s1 (record_buf s1 ++ [mkDatum None (Some (long_key k)) (payload n)])
       (buf_size s1 + (n + k)),
     mkWorld (clock w1) (calls w1)).
Proof.
  intros Hpre Hk Hn Hl Hd.
  assert (Hr : @_sizeof_bytes accepting_env (payload n) <= MAX_RECORD_SIZE)
    by (rewrite accepting_sizeof_bytes, spec_sizeof_bytes_payload; lia).
  pose proof (put_records_turn_fits pre (payload n) (Some (long_key k)) None
                s w resp1 s1 w1 Hpre Hr) as H.
  cbv zeta in H. apply Z.eqb_neq in Hl. rewrite Hl in H.
  rewrite datum_at_partition_key, clock_after_partition_key in H by lia.
  rewrite accepting_sizeof_datum, spec_sizeof_datum_keyed in H by lia.
  apply H. exact Hd.
Qed.

(** Three records of 1 MiB put under a key of 664098 characters into a new
    producer leave the buffer of 4.9 MiB: no turn flushes. *)
Lemma heavy_producer_reachable :
  put_records [payload 1048576; payload 1048576; payload 1048576]
    (Some (long_key 664098)) None (init "orders" false) w0
  = (Returned [], heavy_producer, w0).
Proof.
  assert (E0 : put_records [] (Some (long_key 664098)) None (init "orders" false) w0
               = (Returned [], init "orders" false, w0)) by reflexivity.
  pose proof (keyed_turn_fits [] 1048576 664098 _ _ _ _ _ E0) as E1.
  cbn [init with_buf record_buf buf_size app List.length clock calls w0] in E1.
  specialize (E1 ltac:(lia) ltac:(unfold MAX_RECORD_SIZE; lia) ltac:(discriminate)
                 ltac:(unfold MAX_BATCH_SIZE, MAX_RECORD_SIZE; lia)).
  pose proof (keyed_turn_fits _ 1048576 664098 _ _ _ _ _ E1) as E2.
  cbn [init with_buf record_buf buf_size app List.length clock calls w0] in E2.
  specialize (E2 ltac:(lia) ltac:(unfold MAX_RECORD_SIZE; lia) ltac:(discriminate)
                 ltac:(unfold MAX_BATCH_SIZE, MAX_RECORD_SIZE; lia)).
  pose proof (keyed_turn_fits _ 1048576 664098 _ _ _ _ _ E2) as E3.
  cbn [init with_buf record_buf buf_size app List.length clock calls w0] in E3.
  specialize (E3 ltac:(lia) ltac:(unfold MAX_RECORD_SIZE; lia) ltac:(discriminate)
                 ltac:(unfold MAX_BATCH_SIZE, MAX_RECORD_SIZE; lia)).
  exact E3.
Qed.

(** C6 as the claim words it fails at the buffer of three records of
    4.9 MiB in all, as three records of 1 MiB put under a long key into a
    new producer leave it: the call with a record of 200 KiB flushes, and
    sends the three records, while the buffer holds 3 entries and not
    500. *)
Lemma flush_below_500_entries :
  put_records [payload 1048576; payload 1048576; payload 1048576]
    (Some (long_key 664098)) None (init "orders" false) w0
  = (Returned [], heavy_producer, w0)
  /\ put_records [payload 204800] (Some (long_key 664098)) None heavy_producer w0
     = (Returned [Some [("FailedRecordCount", "0")]],
        with_buf heavy_producer
          [mkDatum None (Some (long_key 664098)) (payload 204800)] 868898,
        mkWorld 0 [CallPutRecords (record_buf heavy_producer) "orders"])
  /\ List.length (record_buf heavy_producer) = 3%nat
  /\ Z.of_nat (List.length (record_buf heavy_producer)) <> MAX_RECORDS_IN_BATCH.
Proof.
  split; [exact heavy_producer_reachable|].
  split; [|split; [reflexivity|discriminate]].
  pose proof (put_records_turn_overflow [] (payload 204800) (Some (long_key 664098)) None
                heavy_producer w0 [] heavy_producer w0 [("FailedRecordCount", "0")]
                eq_refl light_payload heavy_producer_sum) as H.
  cbv zeta in H. rewrite light_datum_size in H.
  rewrite datum_at_partition_key, clock_after_partition_key in H by lia.
  apply H.
  - reflexivity.
  - intros _. reflexivity.
Qed.

(** C6 at 501 records of 10 bytes put in one call into a new unordered
    producer for [orders], at the turn of the last record: the result list
    holds one response, that of the flush of the first 500 records, and the
    last record is alone in the buffer. *)
Lemma put_records_count_flush_witness :
  exists rsp batch d s' w',
    put_records (repeat (payload 10) 500 ++ [payload 10]) None None
      (init "orders" false) w0
    = (Returned [Some rsp], s', w')
    /\ calls w' = [CallPutRecords batch "orders"]
    /\ List.length batch = 500%nat
    /\ map Data batch = repeat (payload 10) 500
    /\ record_buf s' = [d]
    /\ Data d = payload 10.
Proof.
  assert (F : let x := put_records (repeat (payload 10) 500) None None
                         (init "orders" false) w0 in
              fst (fst x) = Returned []
              /\ List.length (record_buf (snd (fst x))) = 500%nat
              /\ map Data (record_buf (snd (fst x))) = repeat (payload 10) 500
              /\ stream_name (snd (fst x)) = "orders"
              /\ calls (snd x) = []).
  { repeat split; vm_compute; reflexivity. }
  revert F.
  destruct (put_records (repeat (payload 10) 500) None None (init "orders" false) w0)
    as [[o s1] w1] eqn:E.
  cbn [fst snd]. intros (-> & Hlen & Hdata & Hname & Hcalls).
  assert (Hfull : (Z.of_nat (List.length (record_buf s1)) =? MAX_RECORDS_IN_BATCH) = true)
    by (rewrite Hlen; reflexivity).
  assert (Hr : @_sizeof_bytes accepting_env (payload 10) <= MAX_RECORD_SIZE)
    by (vm_compute; discriminate).
  pose proof (put_records_count_flush (repeat (payload 10) 500) (payload 10) None None
                (init "orders" false) w0 [] s1 w1 E Hr) as H.
  cbv zeta in H. rewrite Hfull, Hname, Hcalls in H.
  exists [("FailedRecordCount", "0")], (record_buf s1),
    (datum_at (payload 10) None None (clock w1)).
  do 2 eexists. split; [apply H; vm_compute; discriminate|].
  cbn [calls with_buf record_buf app]. repeat split; auto.
Defined.

(** C2 as the claim words it fails at a partition key of 5 MiB + 1
    characters: one empty record put under it into a new producer leaves a
    running size of 5242881 bytes, above 5 MiB. *)
Lemma oversized_key_exceeds_batch_size :
  run_ops [OpPutRecords [payload 0] (Some (long_key 5242881)) None] (init "orders" true) w0
  = (mkProducer "orders" true (Some "0")
       [mkDatum None (Some (long_key 5242881)) (payload 0)] 5242881, w0)
  /\ ~ buffer_within_limits
         (mkProducer "orders" true (Some "0")
            [mkDatum None (Some (long_key 5242881)) (payload 0)] 5242881).
Proof.
  split.
  - assert (H0 : @_sizeof_bytes accepting_env (payload 0) <= MAX_RECORD_SIZE)
      by (vm_compute; discriminate).
    pose proof (put_records_one_on_empty (payload 0) (Some (long_key 5242881)) None
                  (init "orders" true) w0 eq_refl H0) as H.
    cbv zeta in H. rewrite datum_at_partition_key, clock_after_partition_key in H by lia.
    rewrite accepting_sizeof_datum, spec_sizeof_datum_keyed in H by lia.
    cbn [run_ops run_op]. rewrite H. reflexivity.
  - intros (_ & _ & H). cbn [buf_size] in H. unfold MAX_BATCH_SIZE, MAX_RECORD_SIZE in H. lia.
Qed.

(** ** Scenarios of the further properties *)

(** X1 at an empty partition key and an empty explicit hash key: the
    default key of the first clock reading is sent, and no explicit hash
    key. *)
Lemma put_record_request_witness :
  exists o s' kw,
    put_record (payload 3) (Some "") (Some "") (init "orders" true) w0
    = (o, s', mkWorld 1 [CallPutRecord kw])
    /\ kw_PartitionKey kw = default_key_at 0
    /\ kw_ExplicitHashKey kw = None.
Proof.
  destruct (put_record_request (payload 3) (Some "") (Some "") (init "orders" true) w0)
    as (o & s' & c & kw & E & _ & _ & He & _ & Hd).
  destruct (Hd (or_intror eq_refl)) as [Hk Hc]; [vm_compute; discriminate|].
  subst c. exists o, s', kw. auto.
Defined.

(** X2 at a client that refuses the call: the exception is the client's
    and the producer is the new one still. *)
Lemma put_record_outcome_witness :
  exists c kw,
    put_record (env := refusing_env) (payload 1) None None (init "orders" true) w0
    = (Raised (ClientError "ProvisionedThroughputExceededException"),
       init "orders" true, mkWorld c [CallPutRecord kw]).
Proof.
  destruct (put_record_outcome (env := refusing_env) (payload 1) None None
              (init "orders" true) w0)
    as (o & s' & c & kw & E & H).
  exists c, kw. rewrite E. destruct o as [resp|e]; destruct H as [Hc Hs].
  - discriminate Hc.
  - injection Hc as <-. rewrite Hs. reflexivity.
Defined.

(** X3 at a client whose responses carry no sequence number. *)
Lemma put_record_missing_sequence_number_witness :
  exists resp s' w',
    put_record (env := silent_env) (payload 1) None None (init "orders" true) w0
    = (Returned resp, s', w')
    /\ seq s' = None
    /\ exists o2 s2 c2 kw2,
         put_record (env := silent_env) (payload 2) None None s' w'
         = (o2, s2, mkWorld c2 (calls w' ++ [CallPutRecord kw2]))
         /\ kw_SequenceNumberForOrdering kw2 = Some None.
Proof.
  assert (E : exists resp s' w',
             put_record (env := silent_env) (payload 1) None None (init "orders" true) w0
             = (Returned resp, s', w')
             /\ dict_get "SequenceNumber" resp = None).
  { do 3 eexists. split; vm_compute; reflexivity. }
  destruct E as (resp & s' & w' & E & Hget).
  destruct (put_record_missing_sequence_number (env := silent_env)
              (payload 1) None None (init "orders" true) w0 resp s' w' eq_refl E Hget)
    as [Hseq Hnext].
  exists resp, s', w'. split; [exact E|]. split; [exact Hseq|].
  apply Hnext.
Defined.

(** X4 at a buffer of one record. *)
Lemma flush_twice_witness :
  let s := mkProducer "orders" true (Some "0") [small_datum] 2 in
  flush (with_buf s [] 0) (logged w0 (CallPutRecords [small_datum] "orders"))
  = (Returned None, with_buf s [] 0, logged w0 (CallPutRecords [small_datum] "orders")).
Proof.
  intros s.
  assert (E : flush s w0
              = (Returned (Some [("FailedRecordCount", "0")]), with_buf s [] 0,
                 logged w0 (CallPutRecords [small_datum] "orders"))) by reflexivity.
  apply (flush_twice s w0 _ _ _ E).
Defined.

(** X5 at a flush of one record between two [put_record] calls. *)
Lemma buffer_methods_keep_sequence_number_witness :
  let s := mkProducer "orders" true (Some "49590338271490256608559692538361571095921575989136588898")
             [small_datum] 2 in
  seq (snd (fst (flush s w0)))
  = Some "49590338271490256608559692538361571095921575989136588898".
Proof.
  intros s.
  destruct (flush s w0) as [[o s'] w'] eqn:E. cbn [fst snd].
  destruct (proj2 (buffer_methods_keep_sequence_number s w0) o s' w' E) as [Hs _].
  exact Hs.
Defined.

(** X8 at a call on two records and a call on one. *)
Lemma put_records_app_witness :
  exists s2 w2,
    put_records ([payload 1; payload 2] ++ [payload 3]) None (Some "7")
      (init "orders" true) w0
    = (Returned ([] ++ []), s2, w2)
    /\ map Data (record_buf s2) = [payload 1; payload 2; payload 3].
Proof.
  assert (E : exists s1 w1 s2 w2,
             put_records [payload 1; payload 2] None (Some "7") (init "orders" true) w0
             = (Returned [], s1, w1)
             /\ put_records [payload 3] None (Some "7") s1 w1 = (Returned [], s2, w2)
             /\ map Data (record_buf s2) = [payload 1; payload 2; payload 3]).
  { do 4 eexists. split; [vm_compute; reflexivity|]. split; vm_compute; reflexivity. }
  destruct E as (s1 & w1 & s2 & w2 & E1 & E2 & Hd).
  destruct (put_records_app [payload 1; payload 2] [payload 3] None (Some "7")
              (init "orders" true) w0 [] s1 w1 (Returned []) s2 w2 E1 E2)
    as (o & E & ->).
  exists s2, w2. split; [exact E|exact Hd].
Defined.

(** X9 at two records put without a key: the clocks are read twice, and
    each record is buffered under the default key of its own reading. *)
Lemma put_records_returns_keyed_datums_witness :
  exists resp s' w',
    put_records [payload 1; payload 2] None None (init "orders" true) w0
    = (Returned resp, s', w')
    /\ clock w' = 2%nat
    /\ record_buf s'
       = [mkDatum None (Some (default_key_at 0)) (payload 1);
          mkDatum None (Some (default_key_at 1)) (payload 2)].
Proof.
  assert (E : exists resp s' w',
             put_records [payload 1; payload 2] None None (init "orders" true) w0
             = (Returned resp, s', w') /\ calls w' = []).
  { do 3 eexists. split; vm_compute; reflexivity. }
  destruct E as (resp & s' & w' & E & Hcalls).
  destruct (put_records_returns_keyed_datums [payload 1; payload 2] None None
              (init "orders" true) w0 resp s' w' E)
    as (_ & Hc & batches & Hb & Hcat).
  exists resp, s', w'. split; [exact E|]. split; [exact Hc|].
  rewrite Hcalls in Hb. cbn [calls w0 app] in Hb.
  destruct batches; [|discriminate Hb]. exact Hcat.
Defined.

(** X10 at the same call: nothing was flushed, the result list is empty and
    no call was made. *)
Lemma put_records_result_list_witness :
  exists s' w',
    put_records [payload 1; payload 2] None None (init "orders" true) w0
    = (Returned [], s', w')
    /\ calls w' = [].
Proof.
  assert (E : exists s' w',
             put_records [payload 1; payload 2] None None (init "orders" true) w0
             = (Returned [], s', w')).
  { do 2 eexists. vm_compute. reflexivity. }
  destruct E as (s' & w' & E).
  destruct (put_records_result_list [payload 1; payload 2] None None
              (init "orders" true) w0 [] s' w' E)
    as (batches & _ & _ & Hnone).
  exists s', w'. split; [exact E|]. exact (Hnone eq_refl).
Defined.

(** X11 at an empty record under a partition key of 5 MiB + 1 characters,
    put into a new producer. *)
Lemma put_records_none_response_witness :
  put_records [payload 0] (Some (long_key 5242881)) None (init "orders" true) w0
  = (Returned [None],
     with_buf (init "orders" true)
       [mkDatum None (Some (long_key 5242881)) (payload 0)] 5242881,
     w0).
Proof.
  assert (Hr : @_sizeof_bytes accepting_env (payload 0) <= MAX_RECORD_SIZE)
    by (vm_compute; discriminate).
  pose proof (put_records_none_response (payload 0) (Some (long_key 5242881)) None
                (init "orders" true) w0 eq_refl eq_refl Hr) as H.
  cbv zeta in H.
  rewrite datum_at_partition_key, clock_after_partition_key in H by lia.
  rewrite accepting_sizeof_datum, spec_sizeof_datum_keyed in H by lia.
  apply H. reflexivity.
Defined.

(** X12 at a buffer of 500 entries and a client that refuses the flush: the
    500 entries stay in the buffer and the new records are not added. *)
Lemma put_records_refused_flush_witness :
  exists c,
    put_records (env := refusing_once_env) ([] ++ payload 1 :: [payload 2]) None None
      full_producer w0
    = (Raised (ClientError "ProvisionedThroughputExceededException"), full_producer,
       mkWorld c [CallPutRecords (record_buf full_producer) "orders"]).
Proof.
  apply (put_records_refused_flush (env := refusing_once_env) [] [payload 2] (payload 1)
           None None full_producer w0 [] full_producer w0
           (ClientError "ProvisionedThroughputExceededException") eq_refl).
  - discriminate.
  - reflexivity.
  - left. reflexivity.
Defined.
